(** * Debian Contents index: parse, tally, rank, report

    A shallow embedding of [package_extraction.py].

    Data model.
    - A Python [str] is a [string]; each [ascii] stands for the code point
      of the same number (code points 0..255).
    - A Python [int] is a [Z].
    - A [Counter] is a finite map from package names to counts
      ([gmap string Z]); a key that is absent reads as 0
      ([Counter.__getitem__]); map equality is Python's [==] on dicts,
      which ignores insertion order.
    - Python exceptions are values of [exn]; a call that may raise returns
      a [result]; a loop body that may [continue] returns a [flow].
    - The network is a function from URLs to outcomes, and every request
      is appended to a trace.
    - [sorted] is a merge sort on the order of the keys. The key
      [(-count, name)] determines the item, so the sorted list does not
      depend on the order in which [items()] lists the entries
      ([ranking_any_order]).
    - Calls to [logging] are left out. *)

From Stdlib Require Import ZArith Ascii String DecimalString.
From stdpp Require Import gmap strings list fin_maps sorting.

Local Open Scope Z_scope.

(** ** Exceptions and control flow *)

Inductive exn : Type :=
  | IndexError
  | ValueError
  | RuntimeError (msg : string)
  | OtherError (name : string).

Inductive result (A : Type) : Type :=
  | Ok (a : A)
  | Err (e : exn).
Arguments Ok {A} a.
Arguments Err {A} e.

(** Outcome of one pass through a loop body: fall off the end with a
    value, [continue], or raise. *)
Inductive flow (A : Type) : Type :=
  | Val (a : A)
  | Continue
  | Raise (e : exn).
Arguments Val {A} a.
Arguments Continue {A}.
Arguments Raise {A} e.

(** [l[i]] for a non-negative index. *)
Definition getitem {A : Type} (l : list A) (i : nat) : result A :=
  match l !! i with
  | Some x => Ok x
  | None => Err IndexError
  end.

(** ** The string methods the program calls *)

Module Str.

(** [str.isspace] on one character, for code points below 256. *)
Definition isspace (c : ascii) : bool :=
  match c with
  | "009" | "010" | "011" | "012" | "013"
  | "028" | "029" | "030" | "031" | " "
  | "133" | "160" => true
  | _ => false
  end%char.

(** Truth value of a string: non-empty. *)
Definition truthy (s : string) : bool :=
  match s with
  | EmptyString => false
  | String _ _ => true
  end.

Fixpoint drop_while (p : ascii → bool) (s : string) : string :=
  match s with
  | EmptyString => EmptyString
  | String c s' => if p c then drop_while p s' else s
  end.

Fixpoint take_while (p : ascii → bool) (s : string) : string :=
  match s with
  | EmptyString => EmptyString
  | String c s' => if p c then String c (take_while p s') else EmptyString
  end.

(** Remove the trailing characters that satisfy [p]. *)
Fixpoint rstrip_with (p : ascii → bool) (s : string) : string :=
  match s with
  | EmptyString => EmptyString
  | String c s' =>
      match rstrip_with p s' with
      | EmptyString => if p c then EmptyString else String c EmptyString
      | r => String c r
      end
  end.

Definition lstrip (s : string) : string := drop_while isspace s.
Definition rstrip (s : string) : string := rstrip_with isspace s.

(** [s.strip()] *)
Definition strip (s : string) : string := lstrip (rstrip s).

(** [s.rstrip(chars)] for a one-character [chars]. *)
Definition rstrip_char (ch : ascii) (s : string) : string :=
  rstrip_with (λ c, bool_decide (c = ch)) s.

(** [s.startswith(ch)] for a one-character prefix. *)
Definition startswith (s : string) (ch : ascii) : bool :=
  match s with
  | String c _ => bool_decide (c = ch)
  | EmptyString => false
  end.

(** [s.rsplit(None, 1)]: scanning from the right, skip whitespace, take
    the last run of non-whitespace as a token, skip the whitespace before
    it, and keep what remains (if anything) as the first part. *)
Definition rsplit1 (s : string) : list string :=
  let r := drop_while isspace (String.rev s) in
  match r with
  | EmptyString => []
  | String _ _ =>
      let tok := take_while (λ c, negb (isspace c)) r in
      let rest := drop_while isspace (drop_while (λ c, negb (isspace c)) r) in
      match rest with
      | EmptyString => [String.rev tok]
      | String _ _ => [String.rev rest; String.rev tok]
      end
  end.

(** [s.split(sep)] for a one-character separator: always at least one
    piece, empty pieces kept. *)
Fixpoint split (sep : ascii) (s : string) : list string :=
  match s with
  | EmptyString => [EmptyString]
  | String c s' =>
      if bool_decide (c = sep) then EmptyString :: split sep s'
      else match split sep s' with
           | piece :: pieces => String c piece :: pieces
           | [] => [String c EmptyString]
           end
  end.

(** [sep.join(parts)] *)
Fixpoint join (sep : string) (parts : list string) : string :=
  match parts with
  | [] => EmptyString
  | [p] => p
  | p :: ps => p +:+ sep +:+ join sep ps
  end.

(** [len(s)] *)
Definition len (s : string) : Z := Z.of_nat (String.length s).

(** [ch * n] *)
Definition repeat (ch : ascii) (n : Z) : string :=
  Nat.iter (Z.to_nat n) (String ch) EmptyString.

(** [s.ljust(w)] and [s.rjust(w)], padding with spaces. *)
Definition ljust (s : string) (w : Z) : string := s +:+ repeat " " (w - len s).
Definition rjust (s : string) (w : Z) : string := repeat " " (w - len s) +:+ s.

(** [str(n)] for an integer. *)
Definition of_int (n : Z) : string := NilZero.string_of_int (Z.to_int n).

(** [x in s] for strings: [x] occurs in [s] as a substring. *)
Definition contains (s x : string) : Prop := ∃ pre post, s = pre +:+ x +:+ post.

End Str.

(** ** Counter *)

(** [counts[p]]: absent keys read as 0. *)
Definition count_of (counts : gmap string Z) (p : string) : Z :=
  default 0 (counts !! p).

(** [counts.update(pkgs)] on an iterable of keys: one increment per
    element, in order. *)
Definition counter_update (counts : gmap string Z) (pkgs : list string) : gmap string Z :=
  foldl (λ m p, <[p := count_of m p + 1]> m) counts pkgs.

(** ** parse_contents_lines *)

(** Lines 102-109: from the raw line to [pkg_field], or [continue]. *)
Definition extract_field (data : string) : flow string :=
  let line := Str.strip data in
  if negb (Str.truthy line) || Str.startswith line "#" then Continue
  else
    match getitem (Str.rsplit1 line) 1 with
    | Ok pkg_field => Val pkg_field
    | Err IndexError | Err ValueError => Continue
    | Err e => Raise e
    end.

(** Line 110: the list comprehension that builds [pkgs]. *)
Definition names_in (pkg_field : string) : list string :=
  Str.strip <$>
    filter (λ pkg, Is_true (Str.truthy (Str.strip pkg))) (Str.split "," pkg_field).

(** Lines 102-110: the package names one line yields, or [continue]. *)
Definition parse_line (data : string) : flow (list string) :=
  match extract_field data with
  | Val pkg_field => Val (names_in pkg_field)
  | Continue => Continue
  | Raise e => Raise e
  end.

(** The body of the [for] loop: lines 102-111. *)
Definition loop_body (counts : gmap string Z) (data : string) : flow (gmap string Z) :=
  match parse_line data with
  | Val pkgs => Val (counter_update counts pkgs)
  | Continue => Continue
  | Raise e => Raise e
  end.

(** The [for] loop started on a given counter. *)
Fixpoint tally (counts : gmap string Z) (lines : list string) : result (gmap string Z) :=
  match lines with
  | [] => Ok counts
  | data :: rest =>
      match loop_body counts data with
      | Val counts' => tally counts' rest
      | Continue => tally counts rest
      | Raise e => Err e
      end
  end.

Definition parse_contents_lines (lines : list string) : result (gmap string Z) :=
  tally ∅ lines.

(** ** top_n_packages *)

(** The sort key [(-kv[1], kv[0])] and the order of Python tuples on it:
    first components compared as integers, then names as strings. *)
Definition sort_key (kv : string * Z) : Z * string := (- kv.2, kv.1).

Definition key_le (a b : string * Z) : Prop :=
  (sort_key a).1 < (sort_key b).1
  ∨ ((sort_key a).1 = (sort_key b).1 ∧ String.le (sort_key a).2 (sort_key b).2).

Global Instance key_le_dec : RelDecision key_le.
Proof. intros a b. unfold key_le. apply _. Defined.

(** [l[:n]] *)
Definition slice_to {A : Type} (l : list A) (n : Z) : list A :=
  if decide (n < 0) then take (Z.to_nat (Z.of_nat (length l) + n)) l
  else take (Z.to_nat n) l.

(** [counts.items()] *)
Definition items (counts : gmap string Z) : list (string * Z) := map_to_list counts.

Definition top_n_packages (counts : gmap string Z) (n : Z) : list (string * Z) :=
  slice_to (merge_sort key_le (items counts)) n.

(** ** format_table *)

(** [max(f(x) for x in rows)] over a non-empty list. *)
Definition max_of {A : Type} (f : A → Z) (first : A) (others : list A) : Z :=
  foldl (λ acc x, Z.max acc (f x)) (f first) others.

Definition newline : string := String "010" EmptyString.

Definition header_line : string :=
  newline +:+ Str.ljust "Package" 30 +:+ "  " +:+ Str.rjust "File Count" 20.

Definition rule_line (name_width : Z) : string :=
  Str.repeat "-" name_width +:+ "------------".

Definition row_line (name_width count_width : Z) (row : string * Z) : string :=
  Str.ljust row.1 name_width +:+ "  " +:+ Str.rjust (Str.of_int row.2) count_width.

Definition format_table (rows : list (string * Z)) : string :=
  match rows with
  | [] => "(no data)"
  | first :: others =>
      let name_width := max_of (λ r, Str.len r.1) first others in
      let count_width := max_of (λ r, Str.len (Str.of_int r.2)) first others in
      let lines :=
        [header_line; rule_line name_width]
          ++ (row_line name_width count_width <$> rows) in
      Str.join newline lines +:+ newline
  end.

(** ** The remote source *)

Section Remote.

(** An open HTTP response; its content is never inspected here. *)
Context {response : Type}.

(** What asking for a URL comes to. [Request(url)] may reject the URL with
    a ValueError before anything is sent ([Malformed]); otherwise [urlopen]
    is called and returns a response or raises. *)
Inductive url_outcome : Type :=
  | Opened (resp : response)
  | HTTPError (code : Z)
  | URLError
  | Failure (e : exn)
  | Malformed.

(** The text stream handed back: the response wrapped in a gzip or an
    lzma reader and a UTF-8 decoder. *)
Inductive text_stream : Type :=
  | GzipText (resp : response)
  | LzmaText (resp : response).

(** The network. *)
Variable urlopen : string → url_outcome.

(** A computation that records the URLs it requests. *)
Definition net (A : Type) : Type := list string → result A * list string.

Definition build_contents_urls (arch mirror suite component : string) : string * string :=
  let base := Str.rstrip_char "/" mirror +:+ "/dists/" +:+ suite +:+ "/" +:+ component in
  let gz := base +:+ "/Contents-" +:+ arch +:+ ".gz" in
  let xz := base +:+ "/Contents-" +:+ arch +:+ ".xz" in
  (gz, xz).

(** [Request(url)] stands before the [try]: its ValueError leaves the
    function before [urlopen] is called, so nothing is requested. Both
    [except] clauses return [None]; they differ in what is logged. *)
Definition try_open_url (url : string) : net (option response) :=
  λ trace,
    let trace' := trace ++ [url] in
    match urlopen url with
    | Malformed => (Err ValueError, trace)
    | Opened resp => (Ok (Some resp), trace')
    | HTTPError code =>
        if decide (code = 404) then (Ok None, trace') else (Ok None, trace')
    | URLError => (Ok None, trace')
    | Failure e => (Err e, trace')
    end.

Definition not_found_message (arch gz_url xz_url : string) : string :=
  "Could not find Contents file for '" +:+ arch +:+ "'. Tried:" +:+ newline
    +:+ "  " +:+ gz_url +:+ newline +:+ "  " +:+ xz_url.

Definition open_remote_contents_stream (arch mirror suite component : string)
  : net (text_stream * string) :=
  λ trace,
    let '(gz_url, xz_url) := build_contents_urls arch mirror suite component in
    match try_open_url gz_url trace with
    | (Err e, trace1) => (Err e, trace1)
    | (Ok (Some resp), trace1) => (Ok (GzipText resp, gz_url), trace1)
    | (Ok None, trace1) =>
        match try_open_url xz_url trace1 with
        | (Err e, trace2) => (Err e, trace2)
        | (Ok (Some resp), trace2) => (Ok (LzmaText resp, xz_url), trace2)
        | (Ok None, trace2) =>
            (Err (RuntimeError (not_found_message arch gz_url xz_url)), trace2)
        end
    end.

End Remote.

Arguments url_outcome : clear implicits.
Arguments text_stream : clear implicits.

(** ** configure_logging *)

(** The numeric levels of the [logging] module. *)
Definition WARNING : Z := 30.
Definition INFO : Z := 20.
Definition DEBUG : Z := 10.

(** The level [configure_logging] passes to [logging.basicConfig]. *)
Definition configure_logging (verbosity : Z) : Z :=
  if decide (verbosity = 1) then INFO
  else if decide (verbosity >= 2) then DEBUG
  else WARNING.

(** ** The main block *)

(** The namespace [parse_args] returns. *)
Record namespace : Type := Namespace {
  ns_arch : string;
  ns_mirror : string;
  ns_suite : string;
  ns_component : string;
  ns_top : Z;
  ns_verbose : Z
}.

Section Main.

Context {response : Type}.

(** The network, as above. *)
Variable urlopen : string → url_outcome response.

(** What iterating over a text stream gives: the lines it delivers and,
    when decoding fails on the way, the exception raised after them. *)
Variable read_lines : text_stream response → list string * option exn.

(** [parse_contents_lines(stream)]: the loop runs on the delivered lines;
    an exception of the iterator leaves the function before [return]. *)
Definition parse_contents_stream (stream : text_stream response)
  : result (gmap string Z) :=
  let '(lines, failure) := read_lines stream in
  match parse_contents_lines lines with
  | Err e => Err e
  | Ok counts =>
      match failure with
      | Some e => Err e
      | None => Ok counts
      end
  end.

(** Lines 181-190, from the parsed arguments on: the exit status and what
    was written to standard output. [print] ends its text with a newline;
    [sys.exit(0)] is not caught by [except Exception], every [exn] is.
    The call of [configure_logging] before the [try] changes neither. *)
Definition main (args : namespace) : Z * string :=
  match open_remote_contents_stream urlopen
          (ns_arch args) (ns_mirror args) (ns_suite args) (ns_component args) [] with
  | (Ok (stream, source), _) =>
      match parse_contents_stream stream with
      | Ok counts =>
          let rows := top_n_packages counts (ns_top args) in
          (0, format_table rows +:+ newline)
      | Err e => (1, "")
      end
  | (Err e, _) => (1, "")
  end.

End Main.

(** ** The round-trip scenario *)

Definition scenario_lines : list string :=
  [ "usr/bin/foo pkg-foo";
    "usr/share/doc/bar pkg-bar,pkg-baz,pkg-foo";
    "/var/lib/thing pkg-baz";
    "usr/bin/qux pkg-qux";
    "usr/bin/foo3 pkg-foo";
    "usr/share/doc/bar2 pkg-bar,pkg-baz,pkg-foo";
    "/var/lib/thing2 pkg-baz" ].

(** What [test_parser.py] passes: [stream.splitlines()], which starts with
    an empty line and spells one path differently. *)
Definition test_script_lines : list string :=
  [ "";
    "usr/bin/foo pkg-foo";
    "usr/share/doc/bar pkg-bar,pkg-baz,pkg-foo";
    "/var/lib/thing pkg-baz";
    "usr/bin/qux pkg-qux";
    "user/bin/foo3 pkg-foo";
    "usr/share/doc/bar2 pkg-bar,pkg-baz,pkg-foo";
    "/var/lib/thing2 pkg-baz" ].

(** * Vocabulary of the statements *)

(** Every character of [s] satisfies [p]. *)
Fixpoint all_chars (p : ascii → bool) (s : string) : bool :=
  match s with
  | EmptyString => true
  | String c s' => p c && all_chars p s'
  end.

Definition nonspace (c : ascii) : bool := negb (Str.isspace c).
Definition noncomma (c : ascii) : bool := negb (bool_decide (c = ","%char)).

(** How many times [p] is listed in [pkgs]. *)
Definition occurrences (p : string) (pkgs : list string) : nat :=
  length (filter (λ q, q = p) pkgs).

(** The names a line contributes: those it yields, none when it is skipped. *)
Definition emitted (data : string) : list string :=
  match parse_line data with
  | Val pkgs => pkgs
  | Continue | Raise _ => []
  end.

(** Whether the two guards of line 103 let the line through. *)
Definition guarded_out (data : string) : bool :=
  negb (Str.truthy (Str.strip data)) || Str.startswith (Str.strip data) "#".

(** A package name as it can stand in a package field: not empty and
    without a comma. *)
Definition package_name (n : string) : Prop :=
  n ≠ "" ∧ all_chars noncomma n = true.

(** The tally the scenario is said to give, and the one it gives. *)
Definition claimed_tally : gmap string Z :=
  {[ "pkg-foo" := 3; "pkg-baz" := 3; "pkg-bar" := 2; "pkg-qux" := 1 ]}.

Definition scenario_tally : gmap string Z :=
  {[ "pkg-foo" := 4; "pkg-baz" := 4; "pkg-bar" := 2; "pkg-qux" := 1 ]}.

(** A line yields no package name, and no error. *)
Definition yields_nothing (data : string) : Prop :=
  parse_line data = Continue ∨ parse_line data = Val [].

(** The three conditions under which a line is said to be skipped. *)
Definition skip_condition (data : string) : Prop :=
  Str.strip data = ""
  ∨ Str.startswith (Str.strip data) "#" = true
  ∨ (length (Str.rsplit1 (Str.strip data)) < 2)%nat.

(** All comma-separated pieces of the trailing field are empty once trimmed. *)
Definition empty_field (data : string) : Prop :=
  ∃ field, Str.rsplit1 (Str.strip data) !! 1%nat = Some field
           ∧ Forall (λ piece, Str.strip piece = "") (Str.split "," field).

(** Count descending, then name ascending. *)
Definition ranks_before (a b : string * Z) : Prop :=
  b.2 < a.2 ∨ (a.2 = b.2 ∧ String.le a.1 b.1).

(** The full ranking: all entries, sorted. *)
Definition ranking (counts : gmap string Z) : list (string * Z) :=
  merge_sort key_le (items counts).

(** The location M/dists/S/C/Contents-A.ext built from a mirror [M] as given. *)
Definition candidate_url (mirror suite component arch ext : string) : string :=
  mirror +:+ "/dists/" +:+ suite +:+ "/" +:+ component
    +:+ "/Contents-" +:+ arch +:+ ext.

(** [try_open_url] returns [None] for this location. *)
Definition unavailable {response : Type}
    (urlopen : string → url_outcome response) (url : string) : Prop :=
  (∃ code, urlopen url = HTTPError code) ∨ urlopen url = URLError.

(** A network on which nothing can be reached. *)
Definition unreachable : string → url_outcome unit := λ _, URLError.

(** A run of whitespace. *)
Definition blank (s : string) : Prop := all_chars Str.isspace s = true.

(** The sum of all counts of a mapping. *)
Definition total_count (counts : gmap string Z) : Z :=
  foldr Z.add 0 ((map_to_list counts).*2).

(** A decoder that delivers the given lines for every stream and never fails. *)
Definition delivers {response : Type} (lines : list string)
  : text_stream response → list string * option exn :=
  λ _, (lines, None).

(** A network on which only the given location can be opened. *)
Definition only_at (url : string) : string → url_outcome unit :=
  λ u, if decide (u = url) then Opened () else HTTPError 404.

(** * Properties *)

(** ** Strings *)

Lemma str_app_nil_l (s : string) : "" +:+ s = s.
Proof. reflexivity. Qed.

Lemma str_app_cons c (a b : string) : String c a +:+ b = String c (a +:+ b).
Proof. reflexivity. Qed.

Lemma str_app_nil_r (s : string) : s +:+ "" = s.
Proof. induction s as [|c s IH]; [done | by rewrite str_app_cons, IH]. Qed.

Lemma str_app_assoc (a b c : string) : (a +:+ b) +:+ c = a +:+ b +:+ c.
Proof. induction a as [|x a IH]; [done | by rewrite !str_app_cons, IH]. Qed.

Lemma str_length_app (a b : string) :
  String.length (a +:+ b) = (String.length a + String.length b)%nat.
Proof. induction a as [|x a IH]; [done | rewrite str_app_cons; simpl; by rewrite IH]. Qed.

Lemma all_chars_app p (a b : string) :
  all_chars p (a +:+ b) = all_chars p a && all_chars p b.
Proof.
  induction a as [|x a IH]; [done|].
  rewrite str_app_cons. simpl. by rewrite IH, andb_assoc.
Qed.

Lemma all_chars_rev_app p (s acc : string) :
  all_chars p (String.rev_app s acc) = all_chars p s && all_chars p acc.
Proof.
  revert acc. induction s as [|x s IH]; intros acc; simpl; [done|].
  rewrite IH. simpl. destruct (p x), (all_chars p s), (all_chars p acc); done.
Qed.

Lemma all_chars_rev p (s : string) : all_chars p (String.rev s) = all_chars p s.
Proof. unfold String.rev. rewrite all_chars_rev_app. simpl. by rewrite andb_true_r. Qed.

Lemma all_chars_take_while p (s : string) : all_chars p (Str.take_while p s) = true.
Proof.
  induction s as [|x s IH]; simpl; [done|].
  destruct (p x) eqn:Hx; simpl; [by rewrite Hx | done].
Qed.

Lemma rstrip_with_id p (s : string) :
  all_chars (λ c, negb (p c)) s = true → Str.rstrip_with p s = s.
Proof.
  induction s as [|x s IH]; simpl; [done|].
  intros [Hx Hs]%andb_prop. rewrite (IH Hs).
  destruct s; [|done]. by destruct (p x).
Qed.

Lemma drop_while_id p (s : string) :
  all_chars (λ c, negb (p c)) s = true → Str.drop_while p s = s.
Proof. destruct s as [|x s]; simpl; [done|]. intros [Hx _]%andb_prop. by destruct (p x). Qed.

Lemma strip_id (s : string) : all_chars nonspace s = true → Str.strip s = s.
Proof.
  intros Hs. unfold Str.strip, Str.lstrip, Str.rstrip.
  rewrite (rstrip_with_id Str.isspace s Hs). by apply drop_while_id.
Qed.

Lemma split_no_sep sep (s : string) :
  all_chars (λ c, negb (bool_decide (c = sep))) s = true → Str.split sep s = [s].
Proof.
  induction s as [|x s IH]; simpl; [done|].
  intros [Hx Hs]%andb_prop. rewrite (IH Hs).
  case_bool_decide; [done | done].
Qed.

Lemma split_app_sep sep (a rest : string) :
  all_chars (λ c, negb (bool_decide (c = sep))) a = true →
  Str.split sep (a +:+ String sep rest) = a :: Str.split sep rest.
Proof.
  induction a as [|x a IH].
  - intros _. rewrite str_app_nil_l. simpl. by rewrite bool_decide_eq_true_2.
  - intros [Hx Ha]%andb_prop. rewrite str_app_cons. simpl. rewrite (IH Ha).
    simpl in Hx. case_bool_decide; [done | done].
Qed.

Lemma split_join_comma (names : list string) :
  names ≠ [] →
  Forall (λ n, all_chars noncomma n = true) names →
  Str.split "," (Str.join "," names) = names.
Proof.
  induction names as [|n names IH]; [done|]. intros _ Hall.
  apply Forall_cons in Hall as [Hn Hall].
  destruct names as [|n' names]; [by apply split_no_sep|].
  change (Str.join "," (n :: n' :: names)) with (n +:+ String "," (Str.join "," (n' :: names))).
  rewrite split_app_sep by done. f_equal. by apply IH.
Qed.

Lemma all_chars_join p (sep : string) (names : list string) :
  all_chars p (Str.join sep names) = true → Forall (λ n, all_chars p n = true) names.
Proof.
  induction names as [|n names IH]; [by constructor|].
  destruct names as [|n' names]; [by repeat constructor|].
  change (Str.join sep (n :: n' :: names)) with (n +:+ sep +:+ Str.join sep (n' :: names)).
  rewrite !all_chars_app. intros [Hn [_ Hrest]%andb_prop]%andb_prop.
  constructor; [done | by apply IH].
Qed.

(** The token [rsplit] cuts off holds no whitespace. *)
Lemma rsplit1_field_nonspace (s field : string) :
  Str.rsplit1 s !! 1%nat = Some field → all_chars nonspace field = true.
Proof.
  unfold Str.rsplit1.
  destruct (Str.drop_while Str.isspace (String.rev s)) as [|c r] eqn:Hr; [done|].
  destruct (Str.drop_while Str.isspace (Str.drop_while _ (String c r))); [done|].
  intros [= <-]. rewrite all_chars_rev.
  exact (all_chars_take_while nonspace (String c r)).
Qed.

Lemma rsplit1_length (s : string) : (length (Str.rsplit1 s) ≤ 2)%nat.
Proof.
  unfold Str.rsplit1.
  destruct (Str.drop_while Str.isspace (String.rev s)); simpl; [lia|].
  match goal with |- context [match ?x with _ => _ end] => destruct x end; simpl; lia.
Qed.

(** ** Counter updates *)

Lemma occurrences_cons (p q : string) (pkgs : list string) :
  occurrences p (q :: pkgs)
  = if decide (q = p) then S (occurrences p pkgs) else occurrences p pkgs.
Proof. unfold occurrences. rewrite filter_cons. by case_decide. Qed.

Lemma occurrences_pos (p : string) (pkgs : list string) :
  p ∈ pkgs ↔ (0 < occurrences p pkgs)%nat.
Proof.
  induction pkgs as [|q pkgs IH].
  - split; [by inversion 1 | unfold occurrences; simpl; lia].
  - rewrite occurrences_cons, elem_of_cons, IH.
    case_decide as Hq.
    + split; [lia | by left].
    + split; [intros [?|?]; [congruence | done] | by right].
Qed.

Lemma occurrences_NoDup (p : string) (pkgs : list string) :
  NoDup pkgs → p ∈ pkgs → occurrences p pkgs = 1%nat.
Proof.
  induction 1 as [|q pkgs Hq Hnd IH]; [by inversion 1|].
  rewrite occurrences_cons. intros [Heq|Hp]%elem_of_cons.
  - subst q. rewrite decide_True by done. f_equal.
    destruct (occurrences p pkgs) eqn:Ho; [done|].
    exfalso. apply Hq, occurrences_pos. lia.
  - rewrite decide_False by (intros ->; done). by apply IH.
Qed.

Lemma occurrences_Permutation (p : string) (l1 l2 : list string) :
  l1 ≡ₚ l2 → occurrences p l1 = occurrences p l2.
Proof. intros H. unfold occurrences. by rewrite H. Qed.

Lemma count_of_insert (m : gmap string Z) (q p : string) (c : Z) :
  count_of (<[q := c]> m) p = if decide (q = p) then c else count_of m p.
Proof. unfold count_of. rewrite lookup_insert. by case_decide. Qed.

Lemma counter_update_cons (m : gmap string Z) (q : string) (pkgs : list string) :
  counter_update m (q :: pkgs) = counter_update (<[q := count_of m q + 1]> m) pkgs.
Proof. reflexivity. Qed.

Lemma counter_update_app (m : gmap string Z) (l1 l2 : list string) :
  counter_update m (l1 ++ l2) = counter_update (counter_update m l1) l2.
Proof. apply foldl_app. Qed.

(** A key that is not listed keeps its entry, present or absent. *)
Lemma counter_update_lookup_other (m : gmap string Z) (pkgs : list string) (p : string) :
  p ∉ pkgs → counter_update m pkgs !! p = m !! p.
Proof.
  revert m. induction pkgs as [|q pkgs IH]; intros m Hp; [done|].
  apply not_elem_of_cons in Hp as [Hne Hp].
  rewrite counter_update_cons, IH by done. by rewrite lookup_insert_ne.
Qed.

(** A listed key ends with its old count plus its number of listings. *)
Lemma counter_update_lookup_listed (m : gmap string Z) (pkgs : list string) (p : string) :
  p ∈ pkgs →
  counter_update m pkgs !! p = Some (count_of m p + Z.of_nat (occurrences p pkgs)).
Proof.
  revert m. induction pkgs as [|q pkgs IH]; intros m Hp; [by inversion Hp|].
  rewrite counter_update_cons, occurrences_cons.
  destruct (decide (p ∈ pkgs)) as [Hin|Hout].
  - rewrite IH, count_of_insert by done. case_decide; subst; f_equal; lia.
  - apply elem_of_cons in Hp as [->|?]; [|done].
    rewrite counter_update_lookup_other, lookup_insert_eq, decide_True by done.
    assert (occurrences q pkgs = 0%nat) as ->;
      [destruct (occurrences q pkgs) eqn:Ho; [done|];
       exfalso; apply Hout, occurrences_pos; lia|].
    f_equal.
Qed.

Lemma count_of_counter_update (m : gmap string Z) (pkgs : list string) (p : string) :
  count_of (counter_update m pkgs) p = count_of m p + Z.of_nat (occurrences p pkgs).
Proof.
  destruct (decide (p ∈ pkgs)) as [Hin|Hout].
  - unfold count_of at 1. by rewrite counter_update_lookup_listed.
  - unfold count_of at 1. rewrite counter_update_lookup_other by done.
    assert (occurrences p pkgs = 0%nat) as ->;
      [destruct (occurrences p pkgs) eqn:Ho; [done|];
       exfalso; apply Hout, occurrences_pos; lia|].
    unfold count_of. lia.
Qed.

Lemma counter_update_Permutation (m : gmap string Z) (l1 l2 : list string) :
  l1 ≡ₚ l2 → counter_update m l1 = counter_update m l2.
Proof.
  intros Hperm. apply map_eq. intros p.
  destruct (decide (p ∈ l1)) as [Hin|Hout].
  - rewrite !counter_update_lookup_listed by (by rewrite <-?Hperm).
    by rewrite (occurrences_Permutation p l1 l2).
  - rewrite !counter_update_lookup_other by (by rewrite <-?Hperm). done.
Qed.

(** ** The loop *)

Lemma getitem_Ok {A : Type} (l : list A) (i : nat) (x : A) :
  getitem l i = Ok x ↔ l !! i = Some x.
Proof. unfold getitem. destruct (l !! i); split; congruence. Qed.

Lemma getitem_Err {A : Type} (l : list A) (i : nat) (e : exn) :
  getitem l i = Err e ↔ l !! i = None ∧ e = IndexError.
Proof.
  unfold getitem. destruct (l !! i) as [x|].
  - split; [congruence | by intros [??]].
  - split; [by intros [= <-] | by intros [_ ->]].
Qed.

Lemma extract_field_cases (data : string) :
  (extract_field data = Continue
   ∧ (guarded_out data = true ∨ Str.rsplit1 (Str.strip data) !! 1%nat = None))
  ∨ (∃ field, extract_field data = Val field
       ∧ guarded_out data = false
       ∧ Str.rsplit1 (Str.strip data) !! 1%nat = Some field).
Proof.
  unfold extract_field, guarded_out, getitem.
  destruct (negb _ || _); [by left; eauto|].
  destruct (Str.rsplit1 (Str.strip data) !! 1%nat) as [field|]; [right|left]; eauto.
Qed.

Lemma extract_field_no_raise (data : string) (e : exn) : extract_field data ≠ Raise e.
Proof. by destruct (extract_field_cases data) as [[-> _]|(f & -> & _)]. Qed.

Lemma parse_line_no_raise (data : string) (e : exn) : parse_line data ≠ Raise e.
Proof.
  unfold parse_line. pose proof (extract_field_no_raise data) as H.
  destruct (extract_field data); [done | done | by destruct (H e0)].
Qed.

Lemma loop_body_emitted (counts : gmap string Z) (data : string) :
  (loop_body counts data = Continue ∧ emitted data = [])
  ∨ loop_body counts data = Val (counter_update counts (emitted data)).
Proof.
  unfold loop_body, emitted. pose proof (parse_line_no_raise data) as H.
  destruct (parse_line data) as [pkgs| |e]; [by right | by left | by destruct (H e)].
Qed.

(** The loop never raises, and its result is one [update] with all the
    names of all the lines, in order. *)
Lemma tally_emitted (counts : gmap string Z) (lines : list string) :
  tally counts lines = Ok (counter_update counts (lines ≫= emitted)).
Proof.
  revert counts. induction lines as [|data rest IH]; intros counts; [done|].
  simpl tally. rewrite bind_cons, counter_update_app.
  destruct (loop_body_emitted counts data) as [[-> ->]| ->]; apply IH.
Qed.

(** ** What one line yields *)

Lemma strip_empty_iff_not_truthy (s : string) :
  Str.strip s = "" ↔ ¬ Is_true (Str.truthy (Str.strip s)).
Proof. destruct (Str.strip s); simpl; split; first [done | tauto]. Qed.

Lemma filter_nil_Forall {A : Type} (P : A → Prop) `{∀ x, Decision (P x)} (l : list A) :
  filter P l = [] ↔ Forall (λ x, ¬ P x) l.
Proof.
  induction l as [|x l IH]; [by split; [constructor|]|].
  rewrite filter_cons, Forall_cons. case_decide; [split; [done | tauto]|].
  rewrite IH. tauto.
Qed.

Lemma filter_nil_Forall_strip (pieces : list string) :
  filter (λ pkg, Is_true (Str.truthy (Str.strip pkg))) pieces = []
  ↔ Forall (λ piece, Str.strip piece = "") pieces.
Proof.
  rewrite filter_nil_Forall. apply Forall_iff. intros piece.
  symmetry. apply strip_empty_iff_not_truthy.
Qed.

Lemma filter_all {A : Type} (P : A → Prop) `{∀ x, Decision (P x)} (l : list A) :
  Forall P l → filter P l = l.
Proof.
  induction 1 as [|x l Hx _ IH]; [done|].
  by rewrite filter_cons, decide_True, IH.
Qed.

(** No name comes out of a field exactly when all its comma-separated
    pieces are empty once trimmed. *)
Lemma names_in_nil (field : string) :
  names_in field = [] ↔ Forall (λ piece, Str.strip piece = "") (Str.split "," field).
Proof.
  unfold names_in. rewrite <-filter_nil_Forall_strip.
  split; [apply fmap_nil_inv | by intros ->].
Qed.

Lemma names_in_join (names : list string) :
  Forall package_name names →
  Forall (λ n, all_chars nonspace n = true) names →
  names_in (Str.join "," names) = names.
Proof.
  intros Hpkg Hns. destruct (decide (names = [])) as [->|Hne]; [done|].
  unfold names_in. rewrite split_join_comma; [|done|].
  - rewrite filter_all.
    + rewrite <-(list_fmap_id names) at 2. apply Forall_fmap_ext_1.
      eapply Forall_impl; [exact Hns|]. intros n Hn. by apply strip_id.
    + apply Forall_forall. intros n Hin.
      rewrite Forall_forall in Hpkg, Hns.
      rewrite strip_id by auto. destruct (Hpkg n Hin) as [Hnn _]. by destruct n.
  - eapply Forall_impl; [exact Hpkg|]. by intros n [_ ?].
Qed.

Lemma extract_field_nonspace (data field : string) :
  extract_field data = Val field → all_chars nonspace field = true.
Proof.
  intros H. destruct (extract_field_cases data) as [[H' _]|(f & H' & _ & Hf)];
    [congruence|].
  rewrite H in H'. injection H' as <-. by eapply rsplit1_field_nonspace.
Qed.

(** A line whose package field lists [names] makes the loop body run
    [update] on exactly [names]. *)
Lemma tally_index_line (counts : gmap string Z) (data : string) (names : list string) :
  extract_field data = Val (Str.join "," names) →
  Forall package_name names →
  tally counts [data] = Ok (counter_update counts names).
Proof.
  intros Hfield Hpkg. rewrite tally_emitted.
  change ([data] ≫= emitted) with (emitted data ++ []). rewrite app_nil_r.
  unfold emitted, parse_line. rewrite Hfield. do 2 f_equal.
  apply names_in_join; [done|].
  by apply (all_chars_join nonspace ","), (extract_field_nonspace data).
Qed.

Lemma guarded_out_true (data : string) :
  guarded_out data = true
  ↔ Str.strip data = "" ∨ Str.startswith (Str.strip data) "#" = true.
Proof.
  unfold guarded_out. rewrite orb_true_iff.
  destruct (Str.strip data); simpl; intuition congruence.
Qed.

Lemma short_iff_no_second {A : Type} (l : list A) :
  (length l < 2)%nat ↔ l !! 1%nat = None.
Proof. rewrite lookup_ge_None. lia. Qed.

Lemma extract_field_Continue (data : string) :
  extract_field data = Continue ↔ skip_condition data.
Proof.
  unfold skip_condition. rewrite short_iff_no_second.
  pose proof (guarded_out_true data) as Hguard.
  destruct (extract_field_cases data) as [[-> H]|(f & -> & Hg & Hf)].
  - split; [intros _|done]. destruct H as [H|H]; [apply Hguard in H|]; tauto.
  - split; [done|]. intros Hskip.
    assert (guarded_out data = true ∨ Str.rsplit1 (Str.strip data) !! 1%nat = None)
      as [?|?] by tauto; congruence.
Qed.

Lemma parse_line_Continue (data : string) :
  parse_line data = Continue ↔ skip_condition data.
Proof.
  rewrite <-extract_field_Continue. unfold parse_line.
  destruct (extract_field data); split; congruence.
Qed.

Lemma parse_line_Val_nil (data : string) :
  parse_line data = Val [] ↔ guarded_out data = false ∧ empty_field data.
Proof.
  unfold parse_line, empty_field.
  destruct (extract_field_cases data) as [[-> H]|(f & -> & Hg & Hf)].
  - split; [done|]. intros [Hg (f & Hf & _)].
    destruct H as [?|?]; congruence.
  - rewrite Hf. split.
    + intros [= Hn]. split; [done|]. exists f. by rewrite <-names_in_nil.
    + intros [_ (f' & [= <-] & Hall)]. f_equal. by apply names_in_nil.
Qed.

(** C1 (as stated) fails: the scenario does not tally to the claimed counts. *)
Lemma scenario_tally_not_claimed :
  parse_contents_lines scenario_lines ≠ Ok claimed_tally.
Proof.
  intros H.
  assert (parse_contents_lines scenario_lines = Ok scenario_tally) as Hrun
    by (vm_compute; reflexivity).
  assert (scenario_tally !! "pkg-foo" = claimed_tally !! "pkg-foo") as Hfoo
    by congruence.
  vm_compute in Hfoo. discriminate Hfoo.
Qed.

(** C1 (amended): the seven scenario lines tally to
    {pkg-foo: 4, pkg-baz: 4, pkg-bar: 2, pkg-qux: 1}: pkg-foo and pkg-baz are
    each named on four of the lines. The top three of that tally are
    [(pkg-baz, 4), (pkg-foo, 4), (pkg-bar, 2)]. *)
Theorem scenario_round_trip :
  parse_contents_lines scenario_lines = Ok scenario_tally
  ∧ top_n_packages scenario_tally 3
    = [("pkg-baz", 4); ("pkg-foo", 4); ("pkg-bar", 2)].
Proof. split; vm_compute; reflexivity. Qed.

(** The input of the test script tallies to the same mapping. *)
Lemma test_script_tally :
  parse_contents_lines test_script_lines = Ok scenario_tally.
Proof. vm_compute. reflexivity. Qed.

(** A line that passes the comment guard and has a second part after the
    split is a line from which the parser extracts that part. *)
Lemma extract_field_Val (data field : string) :
  extract_field data = Val field
  ↔ Str.startswith (Str.strip data) "#" = false
    ∧ Str.rsplit1 (Str.strip data) !! 1%nat = Some field.
Proof.
  destruct (extract_field_cases data) as [[Hc H]|(f & Hv & Hg & Hf)].
  - rewrite Hc. split; [done|]. intros [Hhash Hfield].
    destruct H as [H|H]; [|congruence].
    apply guarded_out_true in H as [Hblank|?]; [|congruence].
    rewrite Hblank in Hfield. discriminate Hfield.
  - rewrite Hv, Hf. unfold guarded_out in Hg.
    apply orb_false_iff in Hg as [_ Hhash].
    split; [by intros [= ->] | by intros [_ [= ->]]].
Qed.

(** C2 (as stated) fails: a comment line whose trailing field names a
    package leaves that package's count as it was. *)
Lemma comment_line_field_not_tallied :
  ¬ (∀ (counts : gmap string Z) (data : string) (names : list string),
       Str.rsplit1 (Str.strip data) !! 1%nat = Some (Str.join "," names) →
       Forall package_name names → NoDup names →
       ∃ counts', tally counts [data] = Ok counts'
         ∧ ∀ p, p ∈ names → count_of counts' p = count_of counts p + 1).
Proof.
  intros H.
  destruct (H ∅ "# see pkg-a" ["pkg-a"]) as (counts' & Hrun & Hinc).
  - vm_compute. reflexivity.
  - repeat constructor; done.
  - repeat constructor. by intros ?%elem_of_nil.
  - assert (tally ∅ ["# see pkg-a"] = Ok ∅) as Hskip by (vm_compute; reflexivity).
    rewrite Hskip in Hrun. injection Hrun as <-.
    specialize (Hinc "pkg-a" ltac:(by left)). vm_compute in Hinc. discriminate Hinc.
Qed.

(** C2 (amended): for every mapping and every line that is not a comment
    (its trimmed text does not start with '#') and whose trailing
    whitespace-delimited field is the comma-separated list [names] of
    non-empty package names, tallying that line adds to each package's count
    the number of times the line names it: one for every name when the names
    are distinct, two for a name listed twice, and nothing for a package the
    line does not name, whose entry stays as it was. *)
Theorem tally_line_increments
    (counts : gmap string Z) (data : string) (names : list string) :
  Str.startswith (Str.strip data) "#" = false →
  Str.rsplit1 (Str.strip data) !! 1%nat = Some (Str.join "," names) →
  Forall package_name names →
  ∃ counts', tally counts [data] = Ok counts'
    ∧ (∀ p, count_of counts' p = count_of counts p + Z.of_nat (occurrences p names))
    ∧ (NoDup names →
       ∀ p, p ∈ names → counts' !! p = Some (count_of counts p + 1))
    ∧ (∀ p, p ∉ names → counts' !! p = counts !! p)
    ∧ (∀ p, occurrences p names = 2%nat →
            counts' !! p = Some (count_of counts p + 2)).
Proof.
  intros Hhash Hfield Hpkg. exists (counter_update counts names).
  split; [apply tally_index_line; [by apply extract_field_Val | done]|].
  split; [|split; [|split]].
  - intros p. apply count_of_counter_update.
  - intros Hnd p Hp.
    by rewrite counter_update_lookup_listed, (occurrences_NoDup p names).
  - intros p Hp. by apply counter_update_lookup_other.
  - intros p Hp. rewrite counter_update_lookup_listed, Hp; [done|].
    apply occurrences_pos. lia.
Qed.

Lemma tally_line_increments_witness :
  let counts : gmap string Z := {[ "pkg-a" := 5 ]} in
  let data := "usr/bin/x pkg-a,pkg-b,pkg-a" in
  let names := ["pkg-a"; "pkg-b"; "pkg-a"] in
  Str.startswith (Str.strip data) "#" = false
  ∧ Str.rsplit1 (Str.strip data) !! 1%nat = Some (Str.join "," names)
  ∧ Forall package_name names
  ∧ ∃ counts', tally counts [data] = Ok counts'
    ∧ (∀ p, count_of counts' p = count_of counts p + Z.of_nat (occurrences p names))
    ∧ (NoDup names →
       ∀ p, p ∈ names → counts' !! p = Some (count_of counts p + 1))
    ∧ (∀ p, p ∉ names → counts' !! p = counts !! p)
    ∧ (∀ p, occurrences p names = 2%nat →
            counts' !! p = Some (count_of counts p + 2)).
Proof.
  intros counts data names.
  assert (Str.startswith (Str.strip data) "#" = false) as Hhash
    by (vm_compute; reflexivity).
  assert (Str.rsplit1 (Str.strip data) !! 1%nat = Some (Str.join "," names)) as Hfield
    by (vm_compute; reflexivity).
  assert (Forall package_name names) as Hpkg by (repeat constructor; done).
  split; [exact Hhash|]. split; [exact Hfield|]. split; [exact Hpkg|].
  exact (tally_line_increments counts data names Hhash Hfield Hpkg).
Defined.

Lemma yields_nothing_emitted (data : string) :
  yields_nothing data → emitted data = [].
Proof. unfold emitted. by intros [-> | ->]. Qed.

Lemma yields_nothing_iff (data : string) :
  yields_nothing data ↔ skip_condition data ∨ empty_field data.
Proof.
  unfold yields_nothing. rewrite parse_line_Continue, parse_line_Val_nil.
  split; [tauto|]. intros [?|Hempty]; [by left|].
  destruct (guarded_out data) eqn:Hg; [left | by right].
  unfold skip_condition. apply guarded_out_true in Hg. tauto.
Qed.

Lemma no_names_no_change (counts : gmap string Z) (data : string) :
  yields_nothing data → tally counts [data] = Ok counts.
Proof.
  intros Hnone. rewrite tally_emitted.
  change ([data] ≫= emitted) with (emitted data ++ []).
  by rewrite yields_nothing_emitted.
Qed.

(** C4 (as stated) fails: 'path ,,' yields no package name and no error,
    yet it is not blank, not a comment, and splits into two parts. *)
Lemma yields_nothing_not_only_skipped :
  ¬ (∀ data, yields_nothing data ↔ skip_condition data).
Proof.
  intros H. destruct (H "path ,,") as [Hskip _].
  destruct Hskip as [Hblank|[Hcomment|Hshort]].
  - right. vm_compute. reflexivity.
  - vm_compute in Hblank. discriminate Hblank.
  - vm_compute in Hcomment. discriminate Hcomment.
  - vm_compute in Hshort. lia.
Qed.

(** C4 (amended): no line makes the parser raise. A line is skipped by
    [continue] exactly when its trimmed text is empty, or starts with '#', or
    rsplit gives fewer than two parts. A line yields no package name exactly
    when it is skipped or every comma-separated piece of its trailing field
    is empty once trimmed; such a line leaves the tally as it was. *)
Theorem parser_skip_characterisation (data : string) :
  (∀ e, parse_line data ≠ Raise e)
  ∧ (parse_line data = Continue ↔ skip_condition data)
  ∧ (yields_nothing data ↔ skip_condition data ∨ empty_field data)
  ∧ (yields_nothing data → ∀ counts, tally counts [data] = Ok counts).
Proof.
  split; [apply parse_line_no_raise|].
  split; [apply parse_line_Continue|].
  split; [apply yields_nothing_iff|].
  intros Hnone counts. by apply no_names_no_change.
Qed.

(** C8: a line whose trailing field splits on commas into pieces that are
    all empty once trimmed yields no package name and leaves the mapping
    unchanged. *)
Theorem empty_field_leaves_tally
    (counts : gmap string Z) (data field : string) :
  Str.rsplit1 (Str.strip data) !! 1%nat = Some field →
  Forall (λ piece, Str.strip piece = "") (Str.split "," field) →
  yields_nothing data ∧ tally counts [data] = Ok counts.
Proof.
  intros Hfield Hempty.
  assert (yields_nothing data) as Hnone
    by (apply yields_nothing_iff; right; by exists field).
  split; [done|]. by apply no_names_no_change.
Qed.

Lemma empty_field_leaves_tally_witness :
  let counts : gmap string Z := {[ "pkg-a" := 2 ]} in
  Str.rsplit1 (Str.strip "path ,,") !! 1%nat = Some ",,"
  ∧ Forall (λ piece, Str.strip piece = "") (Str.split "," ",,")
  ∧ yields_nothing "path ,," ∧ tally counts ["path ,,"] = Ok counts.
Proof.
  intros counts.
  assert (Str.rsplit1 (Str.strip "path ,,") !! 1%nat = Some ",,") as Hfield
    by (vm_compute; reflexivity).
  assert (Forall (λ piece, Str.strip piece = "") (Str.split "," ",,")) as Hempty
    by (repeat constructor).
  split; [exact Hfield|]. split; [exact Hempty|].
  exact (empty_field_leaves_tally counts "path ,," ",," Hfield Hempty).
Defined.

(** C5: tallying a permutation of the lines gives the same mapping. *)
Theorem parse_contents_lines_permutation (lines1 lines2 : list string) :
  lines1 ≡ₚ lines2 →
  parse_contents_lines lines1 = parse_contents_lines lines2.
Proof.
  intros Hperm. unfold parse_contents_lines. rewrite !tally_emitted. f_equal.
  apply counter_update_Permutation. by rewrite Hperm.
Qed.

Lemma parse_contents_lines_permutation_witness :
  ["usr/bin/foo pkg-foo"; "usr/share/doc/bar pkg-bar,pkg-foo"]
    ≡ₚ ["usr/share/doc/bar pkg-bar,pkg-foo"; "usr/bin/foo pkg-foo"]
  ∧ parse_contents_lines ["usr/bin/foo pkg-foo"; "usr/share/doc/bar pkg-bar,pkg-foo"]
    = parse_contents_lines ["usr/share/doc/bar pkg-bar,pkg-foo"; "usr/bin/foo pkg-foo"].
Proof.
  assert (["usr/bin/foo pkg-foo"; "usr/share/doc/bar pkg-bar,pkg-foo"]
            ≡ₚ ["usr/share/doc/bar pkg-bar,pkg-foo"; "usr/bin/foo pkg-foo"]) as Hperm
    by apply perm_swap.
  split; [exact Hperm|].
  exact (parse_contents_lines_permutation _ _ Hperm).
Defined.

(** C9: [parse_contents_lines] returns a mapping for every sequence of
    lines, and every count stored in it is at least 1. *)
Theorem parse_contents_lines_counts_positive (lines : list string) :
  ∃ counts, parse_contents_lines lines = Ok counts
            ∧ ∀ p c, counts !! p = Some c → 1 ≤ c.
Proof.
  exists (counter_update ∅ (lines ≫= emitted)).
  split; [apply tally_emitted|]. intros p c Hc.
  destruct (decide (p ∈ lines ≫= emitted)) as [Hin|Hout].
  - rewrite counter_update_lookup_listed in Hc by done. injection Hc as <-.
    apply occurrences_pos in Hin. unfold count_of. rewrite lookup_empty. simpl. lia.
  - rewrite counter_update_lookup_other, lookup_empty in Hc by done. discriminate Hc.
Qed.

(** ** Ranking *)

Lemma key_le_ranks_before (a b : string * Z) : key_le a b ↔ ranks_before a b.
Proof. unfold key_le, ranks_before, sort_key. simpl. intuition lia. Qed.

Global Instance key_le_total : Total key_le.
Proof.
  intros [n1 c1] [n2 c2]. unfold key_le, sort_key. simpl.
  destruct (String.le_total n1 n2); destruct (Z.lt_total c1 c2) as [?|[?|?]];
    intuition lia.
Qed.

Global Instance key_le_trans : Transitive key_le.
Proof.
  intros [n1 c1] [n2 c2] [n3 c3]. unfold key_le, sort_key. simpl.
  intros [?|[? H12]] [?|[? H23]]; [left; lia ..|].
  right. split; [lia|]. by etrans.
Qed.

Global Instance key_le_antisym : AntiSymm (=) key_le.
Proof.
  intros [n1 c1] [n2 c2]. unfold key_le, sort_key. simpl.
  intros [?|[? H12]] [?|[? H21]]; try lia.
  f_equal; [|lia]. by apply (anti_symm String.le).
Qed.

Lemma StronglySorted_take {A : Type} (R : relation A) (l : list A) (n : nat) :
  StronglySorted R l → StronglySorted R (take n l).
Proof.
  intros Hl. rewrite <-(take_drop n l) in Hl.
  by apply StronglySorted_app_1_l in Hl.
Qed.

Lemma StronglySorted_ranks (l : list (string * Z)) :
  StronglySorted key_le l ↔ StronglySorted ranks_before l.
Proof.
  induction l as [|a l IH]; [by split; constructor|].
  rewrite !StronglySorted_cons, IH.
  assert (Forall (key_le a) l ↔ Forall (ranks_before a) l) as ->; [|done].
  apply Forall_iff. intros b. apply key_le_ranks_before.
Qed.

Lemma ranking_sorted (counts : gmap string Z) :
  StronglySorted ranks_before (ranking counts).
Proof. apply StronglySorted_ranks, StronglySorted_merge_sort; apply _. Qed.

Lemma ranking_Permutation (counts : gmap string Z) :
  ranking counts ≡ₚ map_to_list counts.
Proof. apply merge_sort_Permutation. Qed.

Lemma ranking_length (counts : gmap string Z) :
  length (ranking counts) = size counts.
Proof. by rewrite ranking_Permutation, length_map_to_list. Qed.

Lemma ranking_elem_of (counts : gmap string Z) (name : string) (c : Z) :
  (name, c) ∈ ranking counts ↔ counts !! name = Some c.
Proof. by rewrite ranking_Permutation, elem_of_map_to_list. Qed.

(** Sorting does not depend on the order in which the items are listed,
    so the order in which the keys were inserted does not show. *)
Lemma ranking_any_order (counts : gmap string Z) (l : list (string * Z)) :
  l ≡ₚ items counts → merge_sort key_le l = ranking counts.
Proof.
  intros Hl. apply (Sorted_unique key_le).
  - apply Sorted_merge_sort, _.
  - apply Sorted_merge_sort, _.
  - unfold ranking. by rewrite !merge_sort_Permutation.
Qed.

Lemma top_n_packages_nonneg (counts : gmap string Z) (n : Z) :
  0 ≤ n → top_n_packages counts n = take (Z.to_nat n) (ranking counts).
Proof. intros Hn. unfold top_n_packages, slice_to. by rewrite decide_False by lia. Qed.

Lemma top_n_packages_neg (counts : gmap string Z) (n : Z) :
  n < 0 →
  top_n_packages counts n
  = take (size counts - Z.to_nat (- n)) (ranking counts).
Proof.
  intros Hn. unfold top_n_packages, slice_to. rewrite decide_True by done.
  fold (ranking counts). rewrite ranking_length. f_equal. lia.
Qed.

(** Whatever [n] is, the entries returned rank before the entries left out. *)
Lemma top_n_packages_outranks (counts : gmap string Z) (n : Z) (a b : string * Z) :
  a ∈ top_n_packages counts n →
  b ∈ ranking counts → b ∉ top_n_packages counts n →
  ranks_before a b.
Proof.
  assert (∃ k, top_n_packages counts n = take k (ranking counts)) as [k ->].
  { destruct (decide (n < 0)); eexists;
      [by apply top_n_packages_neg | apply top_n_packages_nonneg; lia]. }
  intros Ha Hb Hout. pose proof (ranking_sorted counts) as Hsorted.
  rewrite <-(take_drop k (ranking counts)) in Hb, Hsorted.
  apply elem_of_app in Hb as [?|Hb]; [done|].
  by eapply (StronglySorted_app_1_elem_of ranks_before).
Qed.

(** C3: for [n ≥ 0], [top_n_packages] returns entries of the mapping,
    sorted by count descending then name ascending, [min n (size)] of them:
    none for [n = 0], and all of them when [n] is at least the size. *)
Theorem top_n_packages_sorted_prefix (counts : gmap string Z) (n : Z) :
  0 ≤ n →
  StronglySorted ranks_before (top_n_packages counts n)
  ∧ Z.of_nat (length (top_n_packages counts n)) = Z.min n (Z.of_nat (size counts))
  ∧ (∀ name c, (name, c) ∈ top_n_packages counts n → counts !! name = Some c)
  ∧ (n = 0 → top_n_packages counts n = [])
  ∧ (Z.of_nat (size counts) ≤ n → top_n_packages counts n ≡ₚ map_to_list counts).
Proof.
  intros Hn. rewrite top_n_packages_nonneg by done.
  split; [apply StronglySorted_take, ranking_sorted|].
  split; [rewrite length_take, ranking_length; lia|].
  split; [|split].
  - intros name c Hin. apply ranking_elem_of.
    apply elem_of_take in Hin as (i & Hi & _). by eapply list_elem_of_lookup_2.
  - by intros ->.
  - intros Hsize. rewrite take_ge by (rewrite ranking_length; lia).
    apply ranking_Permutation.
Qed.

Lemma top_n_packages_sorted_prefix_witness :
  let counts : gmap string Z := {[ "pkg-a" := 2; "pkg-b" := 7; "pkg-c" := 2 ]} in
  0 ≤ 2
  ∧ top_n_packages counts 2 = [("pkg-b", 7); ("pkg-a", 2)]
  ∧ StronglySorted ranks_before (top_n_packages counts 2)
  ∧ Z.of_nat (length (top_n_packages counts 2)) = Z.min 2 (Z.of_nat (size counts)).
Proof.
  intros counts. assert (0 ≤ 2) as Hn by lia.
  split; [exact Hn|]. split; [vm_compute; reflexivity|].
  destruct (top_n_packages_sorted_prefix counts 2 Hn) as (Hsorted & Hlen & _).
  split; [exact Hsorted | exact Hlen].
Defined.

(** C10 (as stated) fails: a negative [n] can give the empty sequence. *)
Lemma negative_n_can_give_empty :
  ¬ (∀ (counts : gmap string Z) (n : Z), n < 0 → top_n_packages counts n ≠ []).
Proof.
  intros H. apply (H {[ "pkg-a" := 1 ]} (-1)); [lia|].
  vm_compute. reflexivity.
Qed.

(** C10 (amended): for a negative [n], [top_n_packages] is total and
    returns the full ranking (all entries, sorted by count descending then
    name ascending) with its last [min (|n|) (size)] entries removed, a
    sequence of length [max (size + n) 0]; it is empty exactly when the
    mapping has at most [|n|] entries. *)
Theorem top_n_packages_negative (counts : gmap string Z) (n : Z) :
  n < 0 →
  StronglySorted ranks_before (ranking counts)
  ∧ ranking counts ≡ₚ map_to_list counts
  ∧ (∃ removed,
       ranking counts = top_n_packages counts n ++ removed
       ∧ length removed = Nat.min (Z.to_nat (- n)) (size counts))
  ∧ Z.of_nat (length (top_n_packages counts n)) = Z.max (Z.of_nat (size counts) + n) 0
  ∧ (top_n_packages counts n = [] ↔ Z.of_nat (size counts) ≤ - n).
Proof.
  intros Hn. rewrite top_n_packages_neg by done.
  pose proof (ranking_length counts) as Hlen.
  assert (Z.of_nat (length (take (size counts - Z.to_nat (- n)) (ranking counts)))
          = Z.max (Z.of_nat (size counts) + n) 0) as Hres
    by (rewrite length_take, Hlen; lia).
  split; [apply ranking_sorted|]. split; [apply ranking_Permutation|].
  split; [|split; [exact Hres|]].
  - exists (drop (size counts - Z.to_nat (- n)) (ranking counts)).
    split; [by rewrite take_drop | rewrite length_drop, Hlen; lia].
  - rewrite <-length_zero_iff_nil. lia.
Qed.

Lemma top_n_packages_negative_witness :
  let counts : gmap string Z := {[ "pkg-a" := 2; "pkg-b" := 7; "pkg-c" := 2 ]} in
  -1 < 0
  ∧ top_n_packages counts (-1) = [("pkg-b", 7); ("pkg-a", 2)]
  ∧ Z.of_nat (length (top_n_packages counts (-1)))
    = Z.max (Z.of_nat (size counts) + -1) 0.
Proof.
  intros counts. assert (-1 < 0) as Hn by lia.
  split; [exact Hn|]. split; [vm_compute; reflexivity|].
  destruct (top_n_packages_negative counts (-1) Hn) as (_ & _ & _ & Hlen & _).
  exact Hlen.
Defined.

(** ** The remote source *)

Lemma build_contents_urls_candidates (arch mirror suite component : string) :
  build_contents_urls arch mirror suite component
  = (candidate_url (Str.rstrip_char "/" mirror) suite component arch ".gz",
     candidate_url (Str.rstrip_char "/" mirror) suite component arch ".xz").
Proof.
  unfold build_contents_urls, candidate_url. by rewrite !str_app_assoc.
Qed.

Lemma try_open_url_unavailable {response : Type}
    (urlopen : string → url_outcome response) (url : string) (trace : list string) :
  unavailable urlopen url →
  try_open_url urlopen url trace = (Ok None, trace ++ [url]).
Proof.
  unfold try_open_url. intros [[code ->]| ->]; [by case_decide | done].
Qed.

Lemma try_open_url_trace {response : Type}
    (urlopen : string → url_outcome response) (url : string) (trace : list string) :
  (urlopen url = Malformed ∧ (try_open_url urlopen url trace).2 = trace)
  ∨ (urlopen url ≠ Malformed
     ∧ (try_open_url urlopen url trace).2 = trace ++ [url]).
Proof.
  unfold try_open_url.
  destruct (urlopen url); [right..|left]; try done. by case_decide.
Qed.

Lemma not_found_message_names_both (arch gz_url xz_url : string) :
  Str.contains (not_found_message arch gz_url xz_url) gz_url
  ∧ Str.contains (not_found_message arch gz_url xz_url) xz_url.
Proof.
  unfold not_found_message, Str.contains. split.
  - exists ("Could not find Contents file for '" +:+ arch +:+ "'. Tried:"
              +:+ newline +:+ "  "), (newline +:+ "  " +:+ xz_url).
    by rewrite !str_app_assoc.
  - exists ("Could not find Contents file for '" +:+ arch +:+ "'. Tried:"
              +:+ newline +:+ "  " +:+ gz_url +:+ newline +:+ "  "), "".
    by rewrite !str_app_assoc, str_app_nil_r.
Qed.

(** C6 (as stated) fails: for a mirror written with a trailing slash the
    locations tried are not M/dists/S/C/Contents-A.gz and .xz. *)
Lemma trailing_slash_mirror_not_candidates :
  (open_remote_contents_stream unreachable
     "amd64" "http://deb.example/debian/" "stable" "main" []).2
  ≠ [ candidate_url "http://deb.example/debian/" "stable" "main" "amd64" ".gz";
      candidate_url "http://deb.example/debian/" "stable" "main" "amd64" ".xz" ].
Proof. vm_compute. intros H. discriminate H. Qed.

(** C6 (amended): with B the mirror M without its trailing '/' characters,
    [open_remote_contents_stream] requests B/dists/S/C/Contents-A.gz first
    and B/dists/S/C/Contents-A.xz second and nothing else; when both are
    unavailable it raises a RuntimeError whose message contains both
    locations, after exactly these two requests. *)
Theorem open_remote_both_unavailable {response : Type}
    (urlopen : string → url_outcome response)
    (arch mirror suite component : string) (trace : list string) :
  let gz_url := candidate_url (Str.rstrip_char "/" mirror) suite component arch ".gz" in
  let xz_url := candidate_url (Str.rstrip_char "/" mirror) suite component arch ".xz" in
  unavailable urlopen gz_url →
  unavailable urlopen xz_url →
  ∃ msg,
    open_remote_contents_stream urlopen arch mirror suite component trace
    = (Err (RuntimeError msg), trace ++ [gz_url; xz_url])
    ∧ Str.contains msg gz_url ∧ Str.contains msg xz_url.
Proof.
  intros gz_url xz_url Hgz Hxz.
  exists (not_found_message arch gz_url xz_url).
  split; [|apply not_found_message_names_both].
  unfold open_remote_contents_stream.
  rewrite build_contents_urls_candidates. fold gz_url xz_url.
  rewrite (try_open_url_unavailable urlopen gz_url) by done.
  rewrite (try_open_url_unavailable urlopen xz_url) by done.
  by rewrite <-app_assoc.
Qed.

Lemma open_remote_both_unavailable_witness :
  let gz_url := "http://deb.example/debian/dists/stable/main/Contents-amd64.gz" in
  let xz_url := "http://deb.example/debian/dists/stable/main/Contents-amd64.xz" in
  unavailable unreachable gz_url
  ∧ unavailable unreachable xz_url
  ∧ ∃ msg,
      open_remote_contents_stream unreachable
        "amd64" "http://deb.example/debian//" "stable" "main" []
      = (Err (RuntimeError msg), [gz_url; xz_url])
      ∧ Str.contains msg gz_url ∧ Str.contains msg xz_url.
Proof.
  intros gz_url xz_url.
  assert (unavailable unreachable gz_url) as Hgz by (by right).
  assert (unavailable unreachable xz_url) as Hxz by (by right).
  split; [exact Hgz|]. split; [exact Hxz|].
  exact (open_remote_both_unavailable unreachable
           "amd64" "http://deb.example/debian//" "stable" "main" [] Hgz Hxz).
Defined.

(** The .gz location is always requested first, and the .xz location only
    after the .gz one was unavailable; a URL that [Request] rejects is not
    requested. *)
Lemma open_remote_requests {response : Type}
    (urlopen : string → url_outcome response)
    (arch mirror suite component : string) (trace : list string) :
  let gz_url := candidate_url (Str.rstrip_char "/" mirror) suite component arch ".gz" in
  let xz_url := candidate_url (Str.rstrip_char "/" mirror) suite component arch ".xz" in
  let requests := (open_remote_contents_stream urlopen arch mirror suite component trace).2 in
  (urlopen gz_url = Malformed ∧ requests = trace)
  ∨ (¬ unavailable urlopen gz_url ∧ requests = trace ++ [gz_url])
  ∨ (unavailable urlopen gz_url ∧ urlopen xz_url = Malformed
     ∧ requests = trace ++ [gz_url])
  ∨ (unavailable urlopen gz_url ∧ requests = trace ++ [gz_url; xz_url]).
Proof.
  intros gz_url xz_url.
  assert (unavailable urlopen gz_url →
          (unavailable urlopen gz_url ∧ urlopen xz_url = Malformed
           ∧ (open_remote_contents_stream urlopen arch mirror suite component trace).2
             = trace ++ [gz_url])
          ∨ (unavailable urlopen gz_url
             ∧ (open_remote_contents_stream urlopen arch mirror suite component trace).2
               = trace ++ [gz_url; xz_url])) as Hfallback.
  { intros Hgz. unfold open_remote_contents_stream.
    rewrite build_contents_urls_candidates. fold gz_url xz_url.
    rewrite (try_open_url_unavailable urlopen gz_url) by done.
    destruct (try_open_url_trace urlopen xz_url (trace ++ [gz_url]))
      as [[Hxz Htr]|[Hxz Htr]];
      destruct (try_open_url urlopen xz_url (trace ++ [gz_url])) as [[[resp|]|e] tr];
      simpl in *; subst tr; rewrite <-?app_assoc; auto. }
  destruct (urlopen gz_url) as [resp|code| |e|] eqn:Hurl.
  - right. left. split; [intros [[c Hc]|Hc]; congruence|].
    unfold open_remote_contents_stream.
    rewrite build_contents_urls_candidates. fold gz_url.
    unfold try_open_url. by rewrite Hurl.
  - do 2 right. apply Hfallback. left. by exists code.
  - do 2 right. apply Hfallback. by right.
  - right. left. split; [intros [[c Hc]|Hc]; congruence|].
    unfold open_remote_contents_stream.
    rewrite build_contents_urls_candidates. fold gz_url.
    unfold try_open_url. by rewrite Hurl.
  - left. split; [done|].
    unfold open_remote_contents_stream.
    rewrite build_contents_urls_candidates. fold gz_url.
    unfold try_open_url. by rewrite Hurl.
Qed.

(** ** The table *)

Lemma format_table_empty : format_table [] = "(no data)".
Proof. reflexivity. Qed.

Lemma foldl_max_ge_start {A : Type} (f : A → Z) (others : list A) (start : Z) :
  start ≤ foldl (λ acc x, Z.max acc (f x)) start others.
Proof.
  revert start. induction others as [|y others IH]; intros start; [done|].
  simpl. etrans; [|apply IH]. lia.
Qed.

Lemma foldl_max_ge_elem {A : Type} (f : A → Z) (others : list A) (start : Z) (x : A) :
  x ∈ others → f x ≤ foldl (λ acc y, Z.max acc (f y)) start others.
Proof.
  revert start. induction others as [|y others IH]; intros start Hin;
    [by inversion Hin|].
  simpl. apply elem_of_cons in Hin as [->|Hin]; [|by apply IH].
  etrans; [|apply foldl_max_ge_start]. lia.
Qed.

(** The computed width is at least the width of every row's cell. *)
Lemma max_of_ge {A : Type} (f : A → Z) (first : A) (others : list A) (x : A) :
  x ∈ first :: others → f x ≤ max_of f first others.
Proof.
  unfold max_of. intros [->|Hin]%elem_of_cons;
    [apply foldl_max_ge_start | by apply foldl_max_ge_elem].
Qed.

(** ... and it is the width of some row's cell. *)
Lemma max_of_attained {A : Type} (f : A → Z) (first : A) (others : list A) :
  ∃ x, x ∈ first :: others ∧ max_of f first others = f x.
Proof.
  unfold max_of.
  assert (∀ start, foldl (λ acc x, Z.max acc (f x)) start others = start
                   ∨ ∃ x, x ∈ others
                          ∧ foldl (λ acc x, Z.max acc (f x)) start others = f x) as H.
  { induction others as [|y others IH]; intros start; [by left|].
    simpl. destruct (IH (Z.max start (f y))) as [Heq|(x & Hx & Heq)].
    - rewrite Heq. destruct (Z.max_spec start (f y)) as [[_ ->]|[_ ->]];
        [right; exists y; split; [by left | done] | by left].
    - right. exists x. split; [by right | done]. }
  destruct (H (f first)) as [Heq|(x & Hx & Heq)].
  - exists first. split; [by left | done].
  - exists x. split; [by right | done].
Qed.

Lemma repeat_length (ch : ascii) (n : Z) :
  Str.len (Str.repeat ch n) = Z.max 0 n.
Proof.
  unfold Str.len, Str.repeat.
  assert (∀ k, String.length (Nat.iter k (String ch) "") = k) as H
    by (induction k as [|k IH]; simpl; [done | by rewrite IH]).
  rewrite H. lia.
Qed.

Lemma len_app (a b : string) : Str.len (a +:+ b) = Str.len a + Str.len b.
Proof. unfold Str.len. rewrite str_length_app. lia. Qed.

Lemma ljust_len (s : string) (w : Z) : Str.len (Str.ljust s w) = Z.max (Str.len s) w.
Proof. unfold Str.ljust. rewrite len_app, repeat_length. lia. Qed.

Lemma rjust_len (s : string) (w : Z) : Str.len (Str.rjust s w) = Z.max (Str.len s) w.
Proof. unfold Str.rjust. rewrite len_app, repeat_length. lia. Qed.

(** Every data row is as wide as the two computed widths and the gap. *)
Lemma row_line_len (first : string * Z) (others : list (string * Z)) (row : string * Z) :
  row ∈ first :: others →
  let name_width := max_of (λ r, Str.len r.1) first others in
  let count_width := max_of (λ r, Str.len (Str.of_int r.2)) first others in
  Str.len (row_line name_width count_width row) = name_width + 2 + count_width.
Proof.
  intros Hin name_width count_width. unfold row_line.
  rewrite !len_app, ljust_len, rjust_len.
  pose proof (max_of_ge (λ r, Str.len r.1) first others row Hin) as Hn.
  pose proof (max_of_ge (λ r, Str.len (Str.of_int r.2)) first others row Hin) as Hc.
  fold name_width in Hn. fold count_width in Hc. simpl in *.
  change (Str.len "  ") with 2. lia.
Qed.

(** The header is always 52 characters wide after its leading newline,
    whatever the rows are. *)
Lemma header_line_fixed :
  header_line
  = newline +:+ "Package" +:+ Str.repeat " " 23 +:+ "  "
      +:+ Str.repeat " " 10 +:+ "File Count".
Proof. vm_compute. reflexivity. Qed.

(** C7: for an empty input [format_table] returns '(no data)'. For a
    non-empty input it renders a header line with 'Package' and 'File Count',
    a rule, and one line per row in the order given; in each of these lines
    the name stands first and is padded on its right to the width of the
    name column, the count text stands last and is padded on its left to the
    width of the count column, and these widths are the length of the longest
    name and the length of the longest count text among the rows. *)
Theorem format_table_renders :
  format_table [] = "(no data)"
  ∧ ∀ (first : string * Z) (others : list (string * Z)),
      let rows := first :: others in
      ∃ name_width count_width,
        format_table rows
        = Str.join newline
            ([ newline +:+ "Package" +:+ Str.repeat " " 23 +:+ "  "
                 +:+ Str.repeat " " 10 +:+ "File Count";
               Str.repeat "-" name_width +:+ "------------" ]
             ++ ((λ row,
                    row.1 +:+ Str.repeat " " (name_width - Str.len row.1)
                      +:+ "  "
                      +:+ Str.repeat " " (count_width - Str.len (Str.of_int row.2))
                      +:+ Str.of_int row.2) <$> rows))
          +:+ newline
        ∧ (∀ row, row ∈ rows →
             Str.len (row.1 +:+ Str.repeat " " (name_width - Str.len row.1))
             = name_width
             ∧ Str.len (Str.repeat " " (count_width - Str.len (Str.of_int row.2))
                          +:+ Str.of_int row.2)
               = count_width)
        ∧ (∀ row, row ∈ rows → Str.len row.1 ≤ name_width)
        ∧ (∃ row, row ∈ rows ∧ Str.len row.1 = name_width)
        ∧ (∀ row, row ∈ rows → Str.len (Str.of_int row.2) ≤ count_width)
        ∧ (∃ row, row ∈ rows ∧ Str.len (Str.of_int row.2) = count_width).
Proof.
  split; [reflexivity|]. intros first others rows.
  exists (max_of (λ r, Str.len r.1) first others),
         (max_of (λ r, Str.len (Str.of_int r.2)) first others).
  pose proof (max_of_ge (λ r, Str.len r.1) first others) as Hname.
  pose proof (max_of_ge (λ r, Str.len (Str.of_int r.2)) first others) as Hcount.
  split; [|split; [|split; [|split; [|split]]]].
  - unfold format_table, rows. cbv zeta. rewrite header_line_fixed.
    do 3 f_equal. apply list_fmap_ext. intros _ row _.
    unfold row_line, Str.ljust, Str.rjust. by rewrite !str_app_assoc.
  - intros row Hrow. specialize (Hname row Hrow). specialize (Hcount row Hrow).
    simpl in Hname, Hcount. rewrite !len_app, !repeat_length. lia.
  - exact Hname.
  - destruct (max_of_attained (λ r, Str.len r.1) first others) as (row & Hrow & ->).
    by exists row.
  - exact Hcount.
  - destruct (max_of_attained (λ r, Str.len (Str.of_int r.2)) first others)
      as (row & Hrow & ->).
    by exists row.
Qed.

(** ** Lines of the index format *)

Lemma rev_app_spec (s acc : string) : String.rev_app s acc = String.rev s +:+ acc.
Proof.
  unfold String.rev. revert acc.
  induction s as [|c s IH]; intros acc; [done|].
  simpl. rewrite (IH (String c acc)), (IH (String c "")).
  by rewrite str_app_assoc.
Qed.

Lemma rev_cons (c : ascii) (s : string) :
  String.rev (String c s) = String.rev s +:+ String c "".
Proof. unfold String.rev at 1. simpl. apply rev_app_spec. Qed.

Lemma rev_app (a b : string) : String.rev (a +:+ b) = String.rev b +:+ String.rev a.
Proof.
  induction a as [|c a IH]; [by rewrite str_app_nil_l, str_app_nil_r|].
  by rewrite str_app_cons, !rev_cons, IH, str_app_assoc.
Qed.

Lemma rev_involutive (s : string) : String.rev (String.rev s) = s.
Proof.
  induction s as [|c s IH]; [done|].
  by rewrite rev_cons, rev_app, IH.
Qed.

Lemma take_while_app_stop p (a : string) (c : ascii) (b : string) :
  all_chars p a = true → p c = false → Str.take_while p (a +:+ String c b) = a.
Proof.
  intros Ha Hc. induction a as [|x a IH].
  - rewrite str_app_nil_l. simpl. by rewrite Hc.
  - simpl in Ha. apply andb_prop in Ha as [Hx Ha].
    rewrite str_app_cons. simpl. by rewrite Hx, IH.
Qed.

Lemma drop_while_app_stop p (a : string) (c : ascii) (b : string) :
  all_chars p a = true → p c = false →
  Str.drop_while p (a +:+ String c b) = String c b.
Proof.
  intros Ha Hc. induction a as [|x a IH].
  - rewrite str_app_nil_l. simpl. by rewrite Hc.
  - simpl in Ha. apply andb_prop in Ha as [Hx Ha].
    rewrite str_app_cons. simpl. by rewrite Hx, IH.
Qed.

Lemma drop_while_keeps p (s : string) (c : ascii) (t : string) :
  p c = false → Str.drop_while p (s +:+ String c t) ≠ "".
Proof.
  intros Hc. induction s as [|x s IH].
  - rewrite str_app_nil_l. simpl. by rewrite Hc.
  - rewrite str_app_cons. simpl. by destruct (p x).
Qed.

Lemma drop_while_app_id p (a b : string) :
  a ≠ "" → all_chars (λ c, negb (p c)) a = true →
  Str.drop_while p (a +:+ b) = a +:+ b.
Proof.
  destruct a as [|x a]; [done|]. intros _ [Hx _]%andb_prop.
  rewrite str_app_cons. simpl. by destruct (p x).
Qed.

Lemma rev_nonempty (s : string) : s ≠ "" → String.rev s ≠ "".
Proof.
  intros Hs Hrev. apply Hs. apply (f_equal String.rev) in Hrev.
  by rewrite rev_involutive in Hrev.
Qed.

Lemma rstrip_with_all p (s : string) :
  all_chars p s = true → Str.rstrip_with p s = "".
Proof.
  induction s as [|x s IH]; [done|]. simpl.
  intros [Hx Hs]%andb_prop. by rewrite IH, Hx.
Qed.

Lemma rstrip_with_app_drop p (a eol : string) :
  all_chars p eol = true → Str.rstrip_with p (a +:+ eol) = Str.rstrip_with p a.
Proof.
  intros Heol. induction a as [|x a IH].
  - rewrite str_app_nil_l. by apply rstrip_with_all.
  - rewrite str_app_cons. simpl. by rewrite IH.
Qed.

Lemma rstrip_with_app_keep p (a b : string) :
  b ≠ "" → all_chars (λ c, negb (p c)) b = true →
  Str.rstrip_with p (a +:+ b) = a +:+ b.
Proof.
  intros Hb Hall. induction a as [|x a IH].
  - rewrite str_app_nil_l. by apply rstrip_with_id.
  - rewrite str_app_cons. simpl. rewrite IH.
    destruct (a +:+ b) eqn:Hab; [|done].
    destruct a; [by rewrite str_app_nil_l in Hab | by rewrite str_app_cons in Hab].
Qed.

(** A line "path field" followed by an end of line: the path starts with
    a character that is neither blank nor '#', and the field is a non-empty
    run of non-blank characters. The parser extracts exactly the field. *)
Lemma extract_field_index_line (c : ascii) (path field eol : string) :
  Str.isspace c = false → c ≠ "#"%char →
  field ≠ "" → all_chars nonspace field = true →
  all_chars Str.isspace eol = true →
  extract_field (String c path +:+ " " +:+ field +:+ eol) = Val field.
Proof.
  intros Hc Hhash Hne Hfield Heol.
  assert (Str.strip (String c path +:+ " " +:+ field +:+ eol)
          = String c (path +:+ " " +:+ field)) as Hstrip.
  { unfold Str.strip, Str.rstrip, Str.lstrip.
    rewrite <-!str_app_assoc, rstrip_with_app_drop by done.
    rewrite rstrip_with_app_keep by done.
    rewrite !str_app_assoc, str_app_cons. simpl. by rewrite Hc. }
  assert (Str.rsplit1 (String c (path +:+ " " +:+ field)) !! 1%nat = Some field)
    as Hsplit.
  { unfold Str.rsplit1.
    rewrite <-str_app_cons, <-str_app_assoc, rev_app.
    assert (all_chars nonspace (String.rev field) = true) as Hrev
      by (by rewrite all_chars_rev).
    assert (String.rev (String c path +:+ " ")
            = String " " (String.rev (String c path))) as ->
      by (by rewrite rev_app).
    pose proof (rev_nonempty field Hne) as Hrevne.
    rewrite (drop_while_app_id Str.isspace) by done.
    destruct (String.rev field +:+ String " " (String.rev (String c path)))
      as [|x r] eqn:Hr.
    { destruct (String.rev field); [done | by rewrite str_app_cons in Hr]. }
    rewrite <-Hr.
    rewrite (take_while_app_stop nonspace), (drop_while_app_stop nonspace) by done.
    simpl Str.drop_while. rewrite rev_cons.
    pose proof (drop_while_keeps Str.isspace (String.rev path) c "" Hc) as Hrest.
    destruct (Str.drop_while Str.isspace (String.rev path +:+ String c ""));
      [done|]. simpl. by rewrite rev_involutive. }
  unfold extract_field. rewrite Hstrip. simpl Str.truthy. simpl Str.startswith.
  rewrite bool_decide_eq_false_2 by done. simpl.
  unfold getitem. by rewrite Hsplit.
Qed.

Lemma all_chars_join_intro p (names : list string) :
  Forall (λ n, all_chars p n = true) names → p ","%char = true →
  all_chars p (Str.join "," names) = true.
Proof.
  intros Hall Hsep. induction Hall as [|n names Hn Hall IH]; [done|].
  destruct names as [|n' names]; [done|].
  change (Str.join "," (n :: n' :: names))
    with (n +:+ "," +:+ Str.join "," (n' :: names)).
  rewrite !all_chars_app, Hn, IH. simpl. by rewrite Hsep.
Qed.

(** Every line "path names" of the index format, with or without its end
    of line, makes the loop run [update] on exactly the names it lists. *)
Lemma index_line_tally
    (counts : gmap string Z) (c : ascii) (path eol : string) (names : list string) :
  Str.isspace c = false → c ≠ "#"%char →
  names ≠ [] →
  Forall package_name names →
  Forall (λ n, all_chars nonspace n = true) names →
  all_chars Str.isspace eol = true →
  tally counts [String c path +:+ " " +:+ Str.join "," names +:+ eol]
  = Ok (counter_update counts names).
Proof.
  intros Hc Hhash Hne Hpkg Hns Heol.
  apply tally_index_line; [|done].
  apply extract_field_index_line; [done | done | | | done].
  - destruct names as [|n names]; [done|].
    apply Forall_cons in Hpkg as [[Hn _] _].
    destruct n; [done|]. by destruct names.
  - by apply all_chars_join_intro.
Qed.

(** * Further properties of the tally *)

Lemma occurrences_app (p : string) (l1 l2 : list string) :
  occurrences p (l1 ++ l2) = (occurrences p l1 + occurrences p l2)%nat.
Proof. unfold occurrences. by rewrite filter_app, length_app. Qed.

Lemma count_of_empty (p : string) : count_of ∅ p = 0.
Proof. unfold count_of. by rewrite lookup_empty. Qed.

Lemma tally_lookup_by_occurrences (lines : list string) :
  ∃ counts, parse_contents_lines lines = Ok counts
    ∧ ∀ p, counts !! p
           = if decide (p ∈ lines ≫= emitted)
             then Some (Z.of_nat (occurrences p (lines ≫= emitted)))
             else None.
Proof.
  exists (counter_update ∅ (lines ≫= emitted)).
  split; [apply tally_emitted|]. intros p. case_decide as Hin.
  - by rewrite counter_update_lookup_listed, count_of_empty.
  - by rewrite counter_update_lookup_other, lookup_empty.
Qed.

(** X1: the count stored for a package is the number of times the lines
    name it, and a package no line names has no entry. *)
Theorem tally_counts_occurrences (lines : list string) :
  ∃ counts, parse_contents_lines lines = Ok counts
    ∧ ∀ p, counts !! p
           = if decide (p ∈ lines ≫= emitted)
             then Some (Z.of_nat (occurrences p (lines ≫= emitted)))
             else None.
Proof.
  exists (counter_update ∅ (lines ≫= emitted)).
  split; [apply tally_emitted|]. intros p.
  destruct (decide (p ∈ lines ≫= emitted)) as [Hin|Hout].
  - by rewrite counter_update_lookup_listed, count_of_empty.
  - by rewrite counter_update_lookup_other, lookup_empty.
Qed.

(** X2: the tally of two batches of lines, one after the other, is the
    key-wise sum of the tallies of the batches. *)
Theorem parse_contents_lines_app (lines1 lines2 : list string) :
  ∃ counts1 counts2 counts,
    parse_contents_lines lines1 = Ok counts1
    ∧ parse_contents_lines lines2 = Ok counts2
    ∧ parse_contents_lines (lines1 ++ lines2) = Ok counts
    ∧ ∀ p, count_of counts p = count_of counts1 p + count_of counts2 p.
Proof.
  unfold parse_contents_lines. rewrite !tally_emitted. do 3 eexists.
  split; [done|]. split; [done|]. split; [done|]. intros p.
  rewrite !count_of_counter_update, bind_app, occurrences_app, count_of_empty. lia.
Qed.

Lemma split_pieces_chars p sep (s : string) :
  all_chars p s = true → Forall (λ piece, all_chars p piece = true) (Str.split sep s).
Proof.
  induction s as [|c s IH]; simpl; [by repeat constructor|].
  intros [Hc Hs]%andb_prop. specialize (IH Hs).
  case_bool_decide; [by constructor|].
  destruct (Str.split sep s) as [|piece pieces]; [by repeat constructor; simpl; rewrite Hc|].
  apply Forall_cons in IH as [Hpiece Hpieces].
  constructor; [simpl; by rewrite Hc, Hpiece | done].
Qed.

Lemma split_pieces_no_sep sep (s : string) :
  Forall (λ piece, all_chars (λ c, negb (bool_decide (c = sep))) piece = true)
         (Str.split sep s).
Proof.
  induction s as [|c s IH]; simpl; [by repeat constructor|].
  case_bool_decide as Hc; [by constructor|].
  destruct (Str.split sep s) as [|piece pieces];
    [repeat constructor; simpl; by rewrite bool_decide_eq_false_2|].
  apply Forall_cons in IH as [Hpiece Hpieces].
  constructor; [simpl; by rewrite bool_decide_eq_false_2, Hpiece | done].
Qed.

(** Every name a line yields is a non-empty run of characters that are
    neither whitespace nor commas. *)
Lemma emitted_well_formed (data n : string) :
  n ∈ emitted data →
  n ≠ "" ∧ all_chars nonspace n = true ∧ all_chars noncomma n = true.
Proof.
  unfold emitted, parse_line.
  destruct (extract_field data) as [field| |e] eqn:Hfield;
    [|by intros ?%elem_of_nil..].
  apply extract_field_nonspace in Hfield. unfold names_in.
  intros (piece & -> & [Htruthy Hpiece]%list_elem_of_filter)%list_elem_of_fmap.
  pose proof (split_pieces_chars nonspace "," field Hfield) as Hns.
  pose proof (split_pieces_no_sep "," field) as Hnc.
  rewrite Forall_forall in Hns, Hnc.
  rewrite strip_id in Htruthy |- * by auto.
  split; [by destruct piece | split; [auto | by apply Hnc]].
Qed.

(** X3: every key of the mapping [parse_contents_lines] returns is a
    non-empty string without whitespace and without a comma. *)
Theorem parse_contents_lines_keys (lines : list string) :
  ∃ counts, parse_contents_lines lines = Ok counts
    ∧ ∀ p c, counts !! p = Some c →
        p ≠ "" ∧ all_chars nonspace p = true ∧ all_chars noncomma p = true.
Proof.
  exists (counter_update ∅ (lines ≫= emitted)).
  split; [apply tally_emitted|]. intros p c Hc.
  destruct (decide (p ∈ lines ≫= emitted)) as [Hin|Hout].
  - apply list_elem_of_bind in Hin as (data & Hin & _).
    by apply (emitted_well_formed data).
  - rewrite counter_update_lookup_other, lookup_empty in Hc by done. discriminate Hc.
Qed.

Lemma drop_while_app_all p (pre s : string) :
  all_chars p pre = true → Str.drop_while p (pre +:+ s) = Str.drop_while p s.
Proof.
  induction pre as [|c pre IH]; [done|]. intros Hall.
  change (all_chars p (String c pre)) with (p c && all_chars p pre) in Hall.
  apply andb_prop in Hall as [Hc Hpre].
  rewrite str_app_cons. simpl. by rewrite Hc, IH.
Qed.

Lemma rstrip_with_empty_all p (s : string) :
  Str.rstrip_with p s = "" → all_chars p s = true.
Proof.
  induction s as [|c s IH]; [done|]. simpl.
  destruct (Str.rstrip_with p s); [|done].
  destruct (p c); [|done]. intros _. by rewrite IH.
Qed.

Lemma rstrip_with_app_nonempty p (pre s : string) :
  Str.rstrip_with p s ≠ "" →
  Str.rstrip_with p (pre +:+ s) = pre +:+ Str.rstrip_with p s.
Proof.
  intros Hs. induction pre as [|c pre IH]; [done|].
  rewrite !str_app_cons. simpl. rewrite IH.
  destruct (pre +:+ Str.rstrip_with p s) eqn:Happ; [|done].
  destruct pre; [by rewrite str_app_nil_l in Happ | by rewrite str_app_cons in Happ].
Qed.

(** Whitespace before and after a text does not change what [strip] gives. *)
Lemma strip_app_blank (pre s post : string) :
  blank pre → blank post → Str.strip (pre +:+ s +:+ post) = Str.strip s.
Proof.
  unfold blank, Str.strip, Str.rstrip, Str.lstrip. intros Hpre Hpost.
  rewrite <-str_app_assoc, rstrip_with_app_drop by done.
  destruct (Str.rstrip_with Str.isspace s) eqn:Hs.
  - apply rstrip_with_empty_all in Hs.
    rewrite rstrip_with_all; [done|]. by rewrite all_chars_app, Hpre, Hs.
  - rewrite rstrip_with_app_nonempty, Hs by (by rewrite Hs).
    by apply drop_while_app_all.
Qed.

(** X4: whitespace around a line -- indentation, trailing blanks, the end
    of line -- does not change what the parser makes of it. *)
Theorem parse_line_surrounding_whitespace (pre data post : string) :
  blank pre → blank post →
  parse_line (pre +:+ data +:+ post) = parse_line data.
Proof.
  intros Hpre Hpost. unfold parse_line, extract_field.
  by rewrite strip_app_blank.
Qed.

Lemma parse_line_surrounding_whitespace_witness :
  let pre := String "009" " " in
  let post := String "013" (String "010" "") in
  blank pre ∧ blank post
  ∧ parse_line (pre +:+ "usr/bin/x pkg-a,pkg-b" +:+ post)
    = parse_line "usr/bin/x pkg-a,pkg-b".
Proof.
  intros pre post.
  assert (blank pre) as Hpre by (vm_compute; reflexivity).
  assert (blank post) as Hpost by (vm_compute; reflexivity).
  split; [exact Hpre|]. split; [exact Hpost|].
  exact (parse_line_surrounding_whitespace pre "usr/bin/x pkg-a,pkg-b" post Hpre Hpost).
Defined.

(** X5: a line made of a path (any text, blanks included, that starts
    with a character that is neither whitespace nor '#'), a space, a
    comma-separated list of names and an end of line yields exactly the
    names of the list, in their order and with their repetitions. *)
Theorem index_line_names (c : ascii) (path eol : string) (names : list string) :
  Str.isspace c = false → c ≠ "#"%char →
  names ≠ [] →
  Forall package_name names →
  Forall (λ n, all_chars nonspace n = true) names →
  blank eol →
  parse_line (String c path +:+ " " +:+ Str.join "," names +:+ eol) = Val names.
Proof.
  intros Hc Hhash Hne Hpkg Hns Heol. unfold parse_line.
  rewrite extract_field_index_line; [|done|done| | |done].
  - f_equal. by apply names_in_join.
  - destruct names as [|n names]; [done|].
    apply Forall_cons in Hpkg as [[Hn _] _].
    destruct n; [done|]. by destruct names.
  - by apply all_chars_join_intro.
Qed.

Lemma index_line_names_witness :
  let names := ["fonts-a"; "fonts-b"; "fonts-a"] in
  Str.isspace "u" = false ∧ "u"%char ≠ "#"%char
  ∧ names ≠ []
  ∧ Forall package_name names
  ∧ Forall (λ n, all_chars nonspace n = true) names
  ∧ blank newline
  ∧ parse_line ("usr/share/My Fonts/a b.ttf" +:+ " " +:+ Str.join "," names +:+ newline)
    = Val names.
Proof.
  intros names.
  assert (Str.isspace "u" = false) as Hc by reflexivity.
  assert ("u"%char ≠ "#"%char) as Hhash by discriminate.
  assert (names ≠ []) as Hne by discriminate.
  assert (Forall package_name names) as Hpkg by (repeat constructor; done).
  assert (Forall (λ n, all_chars nonspace n = true) names) as Hns
    by (repeat constructor).
  assert (blank newline) as Heol by reflexivity.
  repeat (split; [assumption|]).
  exact (index_line_names "u" "sr/share/My Fonts/a b.ttf" newline names
           Hc Hhash Hne Hpkg Hns Heol).
Defined.

(** X6: a line that yields no package name -- blank, comment, a single
    token, an empty field -- can be taken out of the input, wherever it
    stands, without changing the tally. *)
Theorem parse_contents_lines_drop_line (before after : list string) (data : string) :
  yields_nothing data →
  parse_contents_lines (before ++ data :: after)
  = parse_contents_lines (before ++ after).
Proof.
  intros Hnone. unfold parse_contents_lines. rewrite !tally_emitted.
  by rewrite !bind_app, bind_cons, yields_nothing_emitted.
Qed.

Lemma parse_contents_lines_drop_line_witness :
  yields_nothing "# generated on Sunday"
  ∧ parse_contents_lines (["bin/ls coreutils"] ++ "# generated on Sunday" :: ["bin/cp coreutils"])
    = parse_contents_lines (["bin/ls coreutils"] ++ ["bin/cp coreutils"]).
Proof.
  assert (yields_nothing "# generated on Sunday") as Hnone
    by (left; vm_compute; reflexivity).
  split; [exact Hnone|].
  exact (parse_contents_lines_drop_line ["bin/ls coreutils"] ["bin/cp coreutils"]
           "# generated on Sunday" Hnone).
Defined.

Lemma total_count_insert_fresh (m : gmap string Z) (p : string) (c : Z) :
  m !! p = None → total_count (<[p := c]> m) = c + total_count m.
Proof.
  intros Hp. unfold total_count.
  assert (∀ l1 l2 : list Z, l1 ≡ₚ l2 → foldr Z.add 0 l1 = foldr Z.add 0 l2) as Hperm.
  { induction 1; simpl; lia. }
  rewrite (Hperm _ (((p, c) :: map_to_list m).*2)); [done|].
  by rewrite map_to_list_insert.
Qed.

Lemma total_count_increment (m : gmap string Z) (p : string) :
  total_count (<[p := count_of m p + 1]> m) = total_count m + 1.
Proof.
  unfold count_of. destruct (m !! p) as [c|] eqn:Hp; simpl.
  - rewrite <-(insert_delete_id m p c Hp) at 2.
    rewrite <-insert_delete_eq.
    rewrite !total_count_insert_fresh by apply lookup_delete_eq. lia.
  - rewrite total_count_insert_fresh by done. lia.
Qed.

Lemma total_count_counter_update (m : gmap string Z) (pkgs : list string) :
  total_count (counter_update m pkgs) = total_count m + Z.of_nat (length pkgs).
Proof.
  revert m. induction pkgs as [|p pkgs IH]; intros m; [simpl; lia|].
  rewrite counter_update_cons, IH, total_count_increment. simpl length. lia.
Qed.

(** X7: the counts of the returned mapping add up to the number of package
    names the lines yield, one per line and name. *)
Theorem parse_contents_lines_total (lines : list string) :
  ∃ counts, parse_contents_lines lines = Ok counts
    ∧ total_count counts = Z.of_nat (length (lines ≫= emitted)).
Proof.
  exists (counter_update ∅ (lines ≫= emitted)).
  split; [apply tally_emitted|].
  rewrite total_count_counter_update. unfold total_count.
  by rewrite map_to_list_empty.
Qed.

(** * Further properties of the ranking *)

Lemma top_n_packages_take (counts : gmap string Z) (n : Z) :
  ∃ k, top_n_packages counts n = take k (ranking counts).
Proof.
  destruct (decide (n < 0)); eexists;
    [by apply top_n_packages_neg | apply top_n_packages_nonneg; lia].
Qed.

Lemma top_n_packages_elem (counts : gmap string Z) (n : Z) (name : string) (c : Z) :
  (name, c) ∈ top_n_packages counts n → counts !! name = Some c.
Proof.
  destruct (top_n_packages_take counts n) as [k ->]. intros Hin.
  apply ranking_elem_of. apply elem_of_take in Hin as (i & Hi & _).
  by eapply list_elem_of_lookup_2.
Qed.

(** X8: no package is listed twice in the result of [top_n_packages],
    whatever [n] is. *)
Theorem top_n_packages_names_distinct (counts : gmap string Z) (n : Z) :
  NoDup (top_n_packages counts n).*1.
Proof.
  destruct (top_n_packages_take counts n) as [k ->].
  rewrite fmap_take. eapply sublist_NoDup; [|apply sublist_take].
  rewrite ranking_Permutation. apply NoDup_fst_map_to_list.
Qed.

(** X9: asking for fewer entries gives a prefix of what asking for more
    gives: for [0 ≤ n ≤ k] the top [n] are the first [n] of the top [k]. *)
Theorem top_n_packages_prefix (counts : gmap string Z) (n k : Z) :
  0 ≤ n → n ≤ k →
  top_n_packages counts n = take (Z.to_nat n) (top_n_packages counts k).
Proof.
  intros Hn Hk. rewrite !top_n_packages_nonneg by lia.
  rewrite take_take. f_equal. lia.
Qed.

Lemma top_n_packages_prefix_witness :
  let counts : gmap string Z := {[ "pkg-a" := 2; "pkg-b" := 7; "pkg-c" := 2 ]} in
  0 ≤ 1 ∧ 1 ≤ 2
  ∧ top_n_packages counts 1 = take (Z.to_nat 1) (top_n_packages counts 2).
Proof.
  intros counts.
  assert (0 ≤ 1) as Hn by lia. assert (1 ≤ 2) as Hk by lia.
  split; [exact Hn|]. split; [exact Hk|].
  exact (top_n_packages_prefix counts 1 2 Hn Hk).
Defined.

(** X10: every entry [top_n_packages] returns ranks before every entry of
    the mapping it leaves out: a higher count, or the same count and a
    name that is not greater. *)
Theorem top_n_packages_best (counts : gmap string Z) (n : Z)
    (name name' : string) (c c' : Z) :
  (name, c) ∈ top_n_packages counts n →
  counts !! name' = Some c' →
  (name', c') ∉ top_n_packages counts n →
  ranks_before (name, c) (name', c').
Proof.
  intros Hin Hother Hout.
  apply (top_n_packages_outranks counts n); [done | | done].
  by apply ranking_elem_of.
Qed.

Lemma top_n_packages_best_witness :
  let counts : gmap string Z := {[ "pkg-a" := 2; "pkg-b" := 7; "pkg-c" := 2 ]} in
  ("pkg-a", 2) ∈ top_n_packages counts 2
  ∧ counts !! "pkg-c" = Some 2
  ∧ (("pkg-c", 2) ∉ top_n_packages counts 2)
  ∧ ranks_before ("pkg-a", 2) ("pkg-c", 2).
Proof.
  intros counts.
  assert (top_n_packages counts 2 = [("pkg-b", 7); ("pkg-a", 2)]) as Htop
    by (vm_compute; reflexivity).
  assert (("pkg-a", 2) ∈ top_n_packages counts 2) as Hin
    by (rewrite Htop; right; left).
  assert (counts !! "pkg-c" = Some 2) as Hother by (vm_compute; reflexivity).
  assert (("pkg-c", 2) ∉ top_n_packages counts 2) as Hout.
  { rewrite Htop. intros Hc.
    repeat (apply elem_of_cons in Hc as [Hc|Hc]; [discriminate Hc|]).
    by apply elem_of_nil in Hc. }
  split; [exact Hin|]. split; [exact Hother|]. split; [exact Hout|].
  exact (top_n_packages_best counts 2 "pkg-a" "pkg-c" 2 2 Hin Hother Hout).
Defined.

(** X11: the result is fixed by the contents of the mapping alone: any
    arrangement of all its entries that is sorted by count descending and
    name ascending is the list [top_n_packages] returns for [n] the size. *)
Theorem top_n_packages_unique_order (counts : gmap string Z) (l : list (string * Z)) :
  l ≡ₚ map_to_list counts →
  StronglySorted ranks_before l →
  l = top_n_packages counts (Z.of_nat (size counts)).
Proof.
  intros Hperm Hsorted. rewrite top_n_packages_nonneg by lia.
  rewrite take_ge by (rewrite ranking_length; lia).
  apply (StronglySorted_unique key_le).
  - by apply StronglySorted_ranks.
  - apply StronglySorted_ranks, ranking_sorted.
  - by rewrite Hperm, ranking_Permutation.
Qed.

Lemma top_n_packages_unique_order_witness :
  let counts : gmap string Z := {[ "pkg-a" := 2; "pkg-b" := 7 ]} in
  let l := [("pkg-b", 7); ("pkg-a", 2)] in
  l ≡ₚ map_to_list counts
  ∧ StronglySorted ranks_before l
  ∧ l = top_n_packages counts (Z.of_nat (size counts)).
Proof.
  intros counts l.
  assert (l ≡ₚ map_to_list counts) as Hperm.
  { assert (map_to_list counts = [("pkg-a", 2); ("pkg-b", 7)]) as ->
      by (vm_compute; reflexivity).
    apply perm_swap. }
  assert (StronglySorted ranks_before l) as Hsorted.
  { repeat constructor. }
  split; [exact Hperm|]. split; [exact Hsorted|].
  exact (top_n_packages_unique_order counts l Hperm Hsorted).
Defined.

(** X12: every row the ranking of a tally reports, for any [n], carries
    the number of times the lines name that package, which is at least 1. *)
Theorem ranked_rows_of_tally (lines : list string) :
  ∃ counts, parse_contents_lines lines = Ok counts
    ∧ ∀ n name c, (name, c) ∈ top_n_packages counts n →
        c = Z.of_nat (occurrences name (lines ≫= emitted)) ∧ 1 ≤ c.
Proof.
  destruct (tally_lookup_by_occurrences lines) as (counts & Hrun & Hlook).
  exists counts. split; [done|]. intros n name c Hin.
  apply top_n_packages_elem in Hin. rewrite Hlook in Hin.
  case_decide as Hname; [|discriminate Hin]. injection Hin as <-.
  split; [done|]. apply occurrences_pos in Hname. lia.
Qed.

(** * Further properties of the table *)

(** X13: for a non-empty input the table is the header line, a rule and one
    line per row in the order given, each of these lines being exactly
    [name_width + 2 + count_width] characters long, where [name_width] is
    the length of the longest name and [count_width] the length of the
    longest count text among the rows. *)
Theorem format_table_rows_aligned (rows : list (string * Z)) :
  rows ≠ [] →
  ∃ name_width count_width,
    format_table rows
    = Str.join newline ([header_line; rule_line name_width]
                          ++ (row_line name_width count_width <$> rows)) +:+ newline
    ∧ (∀ row, row ∈ rows →
         Str.len row.1 ≤ name_width
         ∧ Str.len (Str.of_int row.2) ≤ count_width
         ∧ Str.len (row_line name_width count_width row)
           = name_width + 2 + count_width)
    ∧ (∃ row, row ∈ rows ∧ Str.len row.1 = name_width)
    ∧ (∃ row, row ∈ rows ∧ Str.len (Str.of_int row.2) = count_width).
Proof.
  destruct rows as [|first others]; [done|]. intros _.
  exists (max_of (λ r, Str.len r.1) first others),
         (max_of (λ r, Str.len (Str.of_int r.2)) first others).
  split; [done|]. split; [|split].
  - intros row Hrow.
    split; [by apply (max_of_ge (λ r, Str.len r.1))|].
    split; [by apply (max_of_ge (λ r, Str.len (Str.of_int r.2)))|].
    by apply row_line_len.
  - destruct (max_of_attained (λ r, Str.len r.1) first others) as (row & Hrow & ->).
    by exists row.
  - destruct (max_of_attained (λ r, Str.len (Str.of_int r.2)) first others)
      as (row & Hrow & ->).
    by exists row.
Qed.

Lemma format_table_rows_aligned_witness :
  let rows := [("libreoffice", 12034); ("gcc", 871)] in
  rows ≠ []
  ∧ ∃ name_width count_width,
      format_table rows
      = Str.join newline ([header_line; rule_line name_width]
                            ++ (row_line name_width count_width <$> rows)) +:+ newline
      ∧ (∀ row, row ∈ rows →
           Str.len row.1 ≤ name_width
           ∧ Str.len (Str.of_int row.2) ≤ count_width
           ∧ Str.len (row_line name_width count_width row)
             = name_width + 2 + count_width)
      ∧ (∃ row, row ∈ rows ∧ Str.len row.1 = name_width)
      ∧ (∃ row, row ∈ rows ∧ Str.len (Str.of_int row.2) = count_width).
Proof.
  intros rows. assert (rows ≠ []) as Hne by discriminate.
  split; [exact Hne|]. exact (format_table_rows_aligned rows Hne).
Defined.

Lemma join_cons_cons (sep p q : string) (ps : list string) :
  Str.join sep (p :: q :: ps) = p +:+ sep +:+ Str.join sep (q :: ps).
Proof. reflexivity. Qed.

(** X14: the placeholder "(no data)" is returned for the empty input only:
    a table with rows starts with an empty line. *)
Theorem format_table_placeholder (rows : list (string * Z)) :
  format_table rows = "(no data)" ↔ rows = [].
Proof.
  split; [|by intros ->].
  destruct rows as [|first others]; [done|]. intros Htable. exfalso.
  unfold format_table in Htable. cbv zeta in Htable.
  change ([header_line; ?r] ++ ?l) with (header_line :: r :: l) in Htable.
  rewrite join_cons_cons in Htable. unfold header_line in Htable.
  rewrite !str_app_assoc in Htable. unfold newline at 1 in Htable.
  rewrite str_app_cons in Htable. discriminate Htable.
Qed.

(** * Further properties of the remote source *)

(** X15: when the .gz location opens, the stream returned reads it through
    gzip, the source named is the .gz location, and the .xz location is
    never requested. *)
Theorem open_remote_gz_available {response : Type}
    (urlopen : string → url_outcome response)
    (arch mirror suite component : string) (trace : list string) (resp : response) :
  let gz_url := candidate_url (Str.rstrip_char "/" mirror) suite component arch ".gz" in
  urlopen gz_url = Opened resp →
  open_remote_contents_stream urlopen arch mirror suite component trace
  = (Ok (GzipText resp, gz_url), trace ++ [gz_url]).
Proof.
  intros gz_url Hgz. unfold open_remote_contents_stream.
  rewrite build_contents_urls_candidates. fold gz_url.
  unfold try_open_url. by rewrite Hgz.
Qed.

Lemma open_remote_gz_available_witness :
  let gz_url := "http://deb.example/debian/dists/stable/main/Contents-amd64.gz" in
  only_at gz_url gz_url = Opened ()
  ∧ open_remote_contents_stream (only_at gz_url)
      "amd64" "http://deb.example/debian" "stable" "main" []
    = (Ok (GzipText (), gz_url), [gz_url]).
Proof.
  intros gz_url.
  assert (only_at gz_url gz_url = Opened ()) as Hgz by (vm_compute; reflexivity).
  split; [exact Hgz|].
  exact (open_remote_gz_available (only_at gz_url)
           "amd64" "http://deb.example/debian" "stable" "main" [] () Hgz).
Defined.

(** X16: when the .gz location is unavailable -- an HTTP error with any
    status code, 404 or not, or a URL error -- and the .xz location opens,
    the stream returned reads it through lzma, the source named is the .xz
    location, and exactly these two requests were made, in this order. *)
Theorem open_remote_xz_fallback {response : Type}
    (urlopen : string → url_outcome response)
    (arch mirror suite component : string) (trace : list string) (resp : response) :
  let gz_url := candidate_url (Str.rstrip_char "/" mirror) suite component arch ".gz" in
  let xz_url := candidate_url (Str.rstrip_char "/" mirror) suite component arch ".xz" in
  unavailable urlopen gz_url →
  urlopen xz_url = Opened resp →
  open_remote_contents_stream urlopen arch mirror suite component trace
  = (Ok (LzmaText resp, xz_url), trace ++ [gz_url; xz_url]).
Proof.
  intros gz_url xz_url Hgz Hxz. unfold open_remote_contents_stream.
  rewrite build_contents_urls_candidates. fold gz_url xz_url.
  rewrite (try_open_url_unavailable urlopen gz_url) by done.
  unfold try_open_url. rewrite Hxz. by rewrite <-app_assoc.
Qed.

Lemma open_remote_xz_fallback_witness :
  let gz_url := "http://deb.example/debian/dists/stable/main/Contents-amd64.gz" in
  let xz_url := "http://deb.example/debian/dists/stable/main/Contents-amd64.xz" in
  unavailable (only_at xz_url) gz_url
  ∧ only_at xz_url xz_url = Opened ()
  ∧ open_remote_contents_stream (only_at xz_url)
      "amd64" "http://deb.example/debian" "stable" "main" []
    = (Ok (LzmaText (), xz_url), [gz_url; xz_url]).
Proof.
  intros gz_url xz_url.
  assert (unavailable (only_at xz_url) gz_url) as Hgz
    by (left; exists 404; vm_compute; reflexivity).
  assert (only_at xz_url xz_url = Opened ()) as Hxz by (vm_compute; reflexivity).
  split; [exact Hgz|]. split; [exact Hxz|].
  exact (open_remote_xz_fallback (only_at xz_url)
           "amd64" "http://deb.example/debian" "stable" "main" [] () Hgz Hxz).
Defined.

(** X17: an exception for the .gz location that is neither an HTTP error
    nor a URL error is not caught, and there is no fallback to the .xz
    location. Raised by [urlopen], it leaves [open_remote_contents_stream]
    after that one request; raised by [Request] for a URL it rejects, it
    is a ValueError and leaves before anything was requested. *)
Theorem open_remote_gz_failure {response : Type}
    (urlopen : string → url_outcome response)
    (arch mirror suite component : string) (trace : list string) :
  let gz_url := candidate_url (Str.rstrip_char "/" mirror) suite component arch ".gz" in
  (∀ e, urlopen gz_url = Failure e →
        open_remote_contents_stream urlopen arch mirror suite component trace
        = (Err e, trace ++ [gz_url]))
  ∧ (urlopen gz_url = Malformed →
     open_remote_contents_stream urlopen arch mirror suite component trace
     = (Err ValueError, trace)).
Proof.
  intros gz_url. split; [intros e Hgz | intros Hgz];
    unfold open_remote_contents_stream;
    rewrite build_contents_urls_candidates; fold gz_url;
    unfold try_open_url; by rewrite Hgz.
Qed.

Lemma open_remote_gz_failure_witness :
  let gz_url := "http://deb.example/debian/dists/stable/main/Contents-amd64.gz" in
  let timing_out : string → url_outcome unit := λ _, Failure (OtherError "TimeoutError") in
  let no_scheme : string → url_outcome unit :=
    λ url, if decide (url = "deb.example/debian/dists/stable/main/Contents-amd64.gz")
           then Malformed else Opened () in
  open_remote_contents_stream timing_out
    "amd64" "http://deb.example/debian" "stable" "main" []
  = (Err (OtherError "TimeoutError"), [gz_url])
  ∧ open_remote_contents_stream no_scheme
      "amd64" "deb.example/debian" "stable" "main" []
    = (Err ValueError, []).
Proof.
  intros gz_url timing_out no_scheme. split.
  - apply (open_remote_gz_failure timing_out
             "amd64" "http://deb.example/debian" "stable" "main" []).
    reflexivity.
  - apply (open_remote_gz_failure no_scheme
             "amd64" "deb.example/debian" "stable" "main" []).
    vm_compute. reflexivity.
Defined.

Lemma rstrip_with_split p (s : string) :
  ∃ tail, s = Str.rstrip_with p s +:+ tail ∧ all_chars p tail = true.
Proof.
  induction s as [|c s (tail & IH & Htail)]; [by exists ""|].
  simpl. destruct (Str.rstrip_with p s) as [|d r] eqn:Hr.
  - destruct (p c) eqn:Hc.
    + exists (String c s). split; [done|]. simpl. rewrite Hc.
      by apply rstrip_with_empty_all.
    + exists tail. split; [|done]. rewrite str_app_cons. by rewrite IH at 1.
  - exists tail. split; [|done]. rewrite str_app_cons. by rewrite IH at 1.
Qed.

Lemma rstrip_with_idem p (s : string) :
  Str.rstrip_with p (Str.rstrip_with p s) = Str.rstrip_with p s.
Proof.
  induction s as [|c s IH]; [done|]. simpl.
  destruct (Str.rstrip_with p s) as [|d r] eqn:Hr.
  - destruct (p c) eqn:Hc; [done|]. simpl. by rewrite Hc.
  - change (Str.rstrip_with p (String c (String d r)))
      with (match Str.rstrip_with p (String d r) with
            | "" => if p c then "" else String c ""
            | String _ _ as t => String c t
            end).
    by rewrite IH.
Qed.

Lemma rstrip_char_app_same (ch : ascii) (s tail : string) :
  all_chars (λ c, bool_decide (c = ch)) tail = true →
  Str.rstrip_char ch (s +:+ tail) = Str.rstrip_char ch s.
Proof. intros Htail. unfold Str.rstrip_char. by apply rstrip_with_app_drop. Qed.

(** X18: slashes at the end of the mirror do not matter: a mirror and the
    same mirror followed by any number of '/' give the same two locations. *)
Theorem build_contents_urls_trailing_slashes
    (arch mirror slashes suite component : string) :
  all_chars (λ c, bool_decide (c = "/"%char)) slashes = true →
  build_contents_urls arch (mirror +:+ slashes) suite component
  = build_contents_urls arch mirror suite component.
Proof.
  intros Hslashes. unfold build_contents_urls.
  by rewrite rstrip_char_app_same.
Qed.

Lemma build_contents_urls_trailing_slashes_witness :
  all_chars (λ c, bool_decide (c = "/"%char)) "//" = true
  ∧ build_contents_urls "amd64" ("http://deb.example/debian" +:+ "//") "stable" "main"
    = build_contents_urls "amd64" "http://deb.example/debian" "stable" "main".
Proof.
  assert (all_chars (λ c, bool_decide (c = "/"%char)) "//" = true) as Hslashes
    by reflexivity.
  split; [exact Hslashes|].
  exact (build_contents_urls_trailing_slashes
           "amd64" "http://deb.example/debian" "//" "stable" "main" Hslashes).
Defined.

(** X19: the mirror after its trailing slashes are removed has none left,
    so no location requested holds "//dists/" because of the mirror's end. *)
Theorem build_contents_urls_normalised (arch mirror suite component : string) :
  ∃ base,
    build_contents_urls arch mirror suite component
    = (candidate_url base suite component arch ".gz",
       candidate_url base suite component arch ".xz")
    ∧ Str.rstrip_char "/" base = base
    ∧ ∃ slashes, mirror = base +:+ slashes
                 ∧ all_chars (λ c, bool_decide (c = "/"%char)) slashes = true.
Proof.
  exists (Str.rstrip_char "/" mirror).
  split; [apply build_contents_urls_candidates|].
  unfold Str.rstrip_char. split.
  - apply rstrip_with_idem.
  - apply rstrip_with_split.
Qed.

Lemma open_remote_unavailable_result {response : Type}
    (urlopen : string → url_outcome response)
    (arch mirror suite component : string) (trace : list string) :
  unavailable urlopen
    (candidate_url (Str.rstrip_char "/" mirror) suite component arch ".gz") →
  unavailable urlopen
    (candidate_url (Str.rstrip_char "/" mirror) suite component arch ".xz") →
  ∃ msg,
    open_remote_contents_stream urlopen arch mirror suite component trace
    = (Err (RuntimeError msg),
       trace ++ [candidate_url (Str.rstrip_char "/" mirror) suite component arch ".gz";
                 candidate_url (Str.rstrip_char "/" mirror) suite component arch ".xz"]).
Proof.
  intros Hgz Hxz. eexists. unfold open_remote_contents_stream.
  rewrite build_contents_urls_candidates.
  rewrite (try_open_url_unavailable urlopen _ trace Hgz).
  rewrite (try_open_url_unavailable urlopen _ _ Hxz).
  by rewrite <-app_assoc.
Qed.

Lemma open_remote_gz_opened {response : Type}
    (urlopen : string → url_outcome response)
    (arch mirror suite component : string) (trace : list string) (resp : response) :
  urlopen (candidate_url (Str.rstrip_char "/" mirror) suite component arch ".gz")
  = Opened resp →
  open_remote_contents_stream urlopen arch mirror suite component trace
  = (Ok (GzipText resp,
         candidate_url (Str.rstrip_char "/" mirror) suite component arch ".gz"),
     trace ++ [candidate_url (Str.rstrip_char "/" mirror) suite component arch ".gz"]).
Proof.
  intros Hgz. unfold open_remote_contents_stream.
  rewrite build_contents_urls_candidates.
  unfold try_open_url. by rewrite Hgz.
Qed.


Lemma counter_update_empty_list (m : gmap string Z) : counter_update m [] = m.
Proof. reflexivity. Qed.

(** * Logging level *)

(** X20: [configure_logging] sets level 30 (WARNING) for a verbosity of 0
    or less, 20 (INFO) for 1 and 10 (DEBUG) for 2 or more; so the level set
    for a larger verbosity is never above the level set for a smaller one. *)
Theorem configure_logging_levels (v1 v2 : Z) :
  v1 ≤ v2 →
  configure_logging v1
  = (if decide (v1 ≤ 0) then 30 else if decide (v1 = 1) then 20 else 10)
  ∧ configure_logging v2
    = (if decide (v2 ≤ 0) then 30 else if decide (v2 = 1) then 20 else 10)
  ∧ configure_logging v2 ≤ configure_logging v1.
Proof.
  unfold configure_logging, WARNING, INFO, DEBUG. intros Hv.
  repeat case_decide; repeat split; lia.
Qed.

Lemma configure_logging_levels_witness :
  0 ≤ 3
  ∧ configure_logging 0 = 30
  ∧ configure_logging 3 = 10
  ∧ configure_logging 3 ≤ configure_logging 0.
Proof.
  assert (0 ≤ 3) as Hv by lia.
  split; [exact Hv|]. exact (configure_logging_levels 0 3 Hv).
Defined.

(** * The whole run *)

Lemma parse_contents_stream_cases {response : Type}
    (read_lines : text_stream response → list string * option exn)
    (stream : text_stream response) :
  parse_contents_stream read_lines stream
  = match (read_lines stream).2 with
    | Some e => Err e
    | None => Ok (counter_update ∅ ((read_lines stream).1 ≫= emitted))
    end.
Proof.
  unfold parse_contents_stream, parse_contents_lines.
  destruct (read_lines stream) as [lines failure].
  rewrite tally_emitted. by destruct failure.
Qed.



(** X22: when both locations are unavailable the run ends with exit status
    1 and prints no table. *)
Theorem main_both_unavailable {response : Type}
    (urlopen : string → url_outcome response)
    (read_lines : text_stream response → list string * option exn)
    (args : namespace) :
  unavailable urlopen
    (candidate_url (Str.rstrip_char "/" (ns_mirror args))
       (ns_suite args) (ns_component args) (ns_arch args) ".gz") →
  unavailable urlopen
    (candidate_url (Str.rstrip_char "/" (ns_mirror args))
       (ns_suite args) (ns_component args) (ns_arch args) ".xz") →
  main urlopen read_lines args = (1, "").
Proof.
  intros Hgz Hxz. unfold main.
  destruct (open_remote_unavailable_result urlopen
              (ns_arch args) (ns_mirror args) (ns_suite args) (ns_component args) []
              Hgz Hxz) as (msg & ->).
  done.
Qed.

Lemma main_both_unavailable_witness :
  let args := Namespace "amd64" "http://deb.example/debian" "stable" "main" 10 0 in
  unavailable unreachable
    (candidate_url (Str.rstrip_char "/" (ns_mirror args))
       (ns_suite args) (ns_component args) (ns_arch args) ".gz")
  ∧ unavailable unreachable
      (candidate_url (Str.rstrip_char "/" (ns_mirror args))
         (ns_suite args) (ns_component args) (ns_arch args) ".xz")
  ∧ main unreachable (delivers scenario_lines) args = (1, "").
Proof.
  intros args.
  assert (unavailable unreachable
            (candidate_url (Str.rstrip_char "/" (ns_mirror args))
               (ns_suite args) (ns_component args) (ns_arch args) ".gz")) as Hgz
    by (by right).
  assert (unavailable unreachable
            (candidate_url (Str.rstrip_char "/" (ns_mirror args))
               (ns_suite args) (ns_component args) (ns_arch args) ".xz")) as Hxz
    by (by right).
  split; [exact Hgz|]. split; [exact Hxz|].
  exact (main_both_unavailable unreachable (delivers scenario_lines) args Hgz Hxz).
Defined.

(** X23: when the stream that was opened, through gzip or through lzma,
    raises while it is read -- a corrupt archive, a dropped connection --
    the run ends with exit status 1 and prints nothing, however many lines
    had been tallied before. *)
Theorem main_read_failure {response : Type}
    (urlopen : string → url_outcome response)
    (read_lines : text_stream response → list string * option exn)
    (args : namespace) (stream : text_stream response) (source : string)
    (requests lines : list string) (e : exn) :
  open_remote_contents_stream urlopen
    (ns_arch args) (ns_mirror args) (ns_suite args) (ns_component args) []
  = (Ok (stream, source), requests) →
  read_lines stream = (lines, Some e) →
  main urlopen read_lines args = (1, "").
Proof.
  intros Hopen Hread. unfold main. rewrite Hopen.
  by rewrite parse_contents_stream_cases, Hread.
Qed.

Lemma main_read_failure_witness :
  let args := Namespace "amd64" "http://deb.example/debian" "stable" "main" 10 0 in
  let gz_url := "http://deb.example/debian/dists/stable/main/Contents-amd64.gz" in
  let xz_url := "http://deb.example/debian/dists/stable/main/Contents-amd64.xz" in
  let read_lines : text_stream unit → list string * option exn :=
    λ _, (scenario_lines, Some (OtherError "LZMAError")) in
  open_remote_contents_stream (only_at xz_url)
    (ns_arch args) (ns_mirror args) (ns_suite args) (ns_component args) []
  = (Ok (LzmaText (), xz_url), [gz_url; xz_url])
  ∧ read_lines (LzmaText ()) = (scenario_lines, Some (OtherError "LZMAError"))
  ∧ main (only_at xz_url) read_lines args = (1, "").
Proof.
  intros args gz_url xz_url read_lines.
  assert (open_remote_contents_stream (only_at xz_url)
            (ns_arch args) (ns_mirror args) (ns_suite args) (ns_component args) []
          = (Ok (LzmaText (), xz_url), [gz_url; xz_url])) as Hopen
    by (vm_compute; reflexivity).
  assert (read_lines (LzmaText ()) = (scenario_lines, Some (OtherError "LZMAError")))
    as Hread by reflexivity.
  split; [exact Hopen|]. split; [exact Hread|].
  exact (main_read_failure (only_at xz_url) read_lines args (LzmaText ()) xz_url
           [gz_url; xz_url] scenario_lines (OtherError "LZMAError") Hopen Hread).
Defined.

(** X24: the table printed does not depend on the order of the lines in
    the index: two streams that deliver the same lines in different orders,
    and fail or succeed alike, give the same exit status and output. *)
Theorem main_line_order {response : Type}
    (urlopen : string → url_outcome response)
    (read1 read2 : text_stream response → list string * option exn)
    (args : namespace) :
  (∀ stream, (read1 stream).1 ≡ₚ (read2 stream).1
             ∧ (read1 stream).2 = (read2 stream).2) →
  main urlopen read1 args = main urlopen read2 args.
Proof.
  intros Hsame. unfold main.
  destruct (open_remote_contents_stream _ _ _ _ _ _) as [[[stream source]|e] trace];
    [|done].
  rewrite !parse_contents_stream_cases.
  destruct (Hsame stream) as [Hperm <-].
  destruct (read1 stream).2; [done|].
  by rewrite (counter_update_Permutation ∅ _ ((read2 stream).1 ≫= emitted))
    by (by rewrite Hperm).
Qed.

Lemma main_line_order_witness :
  let args := Namespace "amd64" "http://deb.example/debian" "stable" "main" 10 0 in
  let gz_url := "http://deb.example/debian/dists/stable/main/Contents-amd64.gz" in
  let read1 : text_stream unit → list string * option exn :=
    delivers ["bin/ls coreutils"; "bin/gcc gcc"; "bin/cp coreutils"] in
  let read2 : text_stream unit → list string * option exn :=
    delivers ["bin/gcc gcc"; "bin/ls coreutils"; "bin/cp coreutils"] in
  (∀ stream, (read1 stream).1 ≡ₚ (read2 stream).1
             ∧ (read1 stream).2 = (read2 stream).2)
  ∧ main (only_at gz_url) read1 args
    = (0, format_table [("coreutils", 2); ("gcc", 1)] +:+ newline)
  ∧ main (only_at gz_url) read1 args = main (only_at gz_url) read2 args.
Proof.
  intros args gz_url read1 read2.
  assert (∀ stream, (read1 stream).1 ≡ₚ (read2 stream).1
                    ∧ (read1 stream).2 = (read2 stream).2) as Hsame
    by (intros stream; split; [apply perm_swap | reflexivity]).
  split; [exact Hsame|]. split; [vm_compute; reflexivity|].
  exact (main_line_order (only_at gz_url) read1 read2 args Hsame).
Defined.

Lemma emitted_nothing (lines : list string) :
  Forall yields_nothing lines → lines ≫= emitted = [].
Proof.
  induction 1 as [|data rest Hdata _ IH]; [done|].
  by rewrite bind_cons, IH, yields_nothing_emitted.
Qed.

Lemma top_n_packages_empty (n : Z) : top_n_packages ∅ n = [].
Proof.
  destruct (top_n_packages_take ∅ n) as [k ->].
  assert (ranking ∅ = []) as -> by (vm_compute; reflexivity).
  by destruct k.
Qed.

(** X25: a run whose stream is read to its end prints the placeholder
    "(no data)" with exit status 0 when [--top] is 0, and also when no line
    of the index yields a package name. *)
Theorem main_no_data {response : Type}
    (urlopen : string → url_outcome response)
    (read_lines : text_stream response → list string * option exn)
    (args : namespace) (resp : response) (lines : list string) :
  urlopen (candidate_url (Str.rstrip_char "/" (ns_mirror args))
             (ns_suite args) (ns_component args) (ns_arch args) ".gz")
  = Opened resp →
  read_lines (GzipText resp) = (lines, None) →
  ns_top args = 0 ∨ Forall yields_nothing lines →
  main urlopen read_lines args = (0, "(no data)" +:+ newline).
Proof.
  intros Hgz Hread Hnone. unfold main.
  rewrite (open_remote_gz_opened urlopen _ _ _ _ [] resp Hgz).
  rewrite parse_contents_stream_cases, Hread. simpl.
  destruct Hnone as [-> | Hall].
  - by rewrite top_n_packages_nonneg by lia.
  - by rewrite emitted_nothing, counter_update_empty_list, top_n_packages_empty.
Qed.

Lemma main_no_data_witness :
  let args := Namespace "amd64" "http://deb.example/debian" "stable" "main" 10 0 in
  let gz_url := "http://deb.example/debian/dists/stable/main/Contents-amd64.gz" in
  let lines := [""; "# no packages here"; "lonely-token"; "path ,,"] in
  let read_lines : text_stream unit → list string * option exn := delivers lines in
  only_at gz_url
    (candidate_url (Str.rstrip_char "/" (ns_mirror args))
       (ns_suite args) (ns_component args) (ns_arch args) ".gz")
  = Opened ()
  ∧ read_lines (GzipText ()) = (lines, None)
  ∧ (ns_top args = 0 ∨ Forall yields_nothing lines)
  ∧ main (only_at gz_url) read_lines args = (0, "(no data)" +:+ newline).
Proof.
  intros args gz_url lines read_lines.
  assert (only_at gz_url
            (candidate_url (Str.rstrip_char "/" (ns_mirror args))
               (ns_suite args) (ns_component args) (ns_arch args) ".gz")
          = Opened ()) as Hgz by (vm_compute; reflexivity).
  assert (read_lines (GzipText ()) = (lines, None)) as Hread by reflexivity.
  assert (ns_top args = 0 ∨ Forall yields_nothing lines) as Hnone.
  { right. repeat constructor; first [by left; vm_compute | by right; vm_compute]. }
  split; [exact Hgz|]. split; [exact Hread|]. split; [exact Hnone|].
  exact (main_no_data (only_at gz_url) read_lines args () lines Hgz Hread Hnone).
Defined.
